(** * seq2seq/inference/inference.py: streaming predictions and UNK replacement

    A shallow embedding of the three functions of [inference.py] that carry
    behaviour of their own:

    - [create_predictions_iter]: flattens the batches fetched from a session
      into a stream of per-example dictionaries;
    - [unk_replace]: rewrites ["UNK"] tokens from the attention scores;
    - [get_unk_mapping]: reads a tab-separated mapping file into a dict.

    [load_model] is embedded over its collaborators (the saved training
    options, the vocabulary reader, the model classes), which it receives
    as parameters.  [create_inference_graph] only assembles TensorFlow
    objects and is left out, as is the [QueueRunners] context that starts
    and stops the feeding threads around the loop.

    Conventions of the embedding:

    - Python exceptions are values of [exn], carried by the [result] monad.
    - A Python [dict] is an association list in insertion order, the
      iteration order of CPython 3.7 and later; [PyDict.set] keeps the
      place of a key that is already present.
    - A generator is the list of the values it yields together with the
      way it ends ([ending]): by returning, or by raising.
    - A session is the list of the outcomes of its successive [run] calls.
    - Attention scores are finite numbers, modelled by the rationals they
      denote, on which the comparisons of [np.argmax] are exact.
    - A file is the string of its bytes.  [GFile] drops carriage returns
      and decodes every line as UTF-8; the lines, fields and tokens of the
      model are the UTF-8 bytes of the decoded text, on which [split] and
      [strip] act as [str.split] and [str.strip] do on the text. *)

From Stdlib Require Import String Ascii List Bool Arith Lia QArith.
Import ListNotations.

Local Open Scope string_scope.
Local Open Scope list_scope.
Local Open Scope nat_scope.

(** ** Exceptions and the error monad *)

Inductive exn : Type :=
| OutOfRangeError   (* tf.errors.OutOfRangeError *)
| IndexError
| ValueError
| KeyError
| NotFoundError     (* tf.errors.NotFoundError *)
| OtherError (msg : string).

Inductive result (A : Type) : Type :=
| Ok (a : A)
| Raise (e : exn).

Arguments Ok {A} a.
Arguments Raise {A} e.

Definition bind {A B : Type} (r : result A) (k : A -> result B) : result B :=
  match r with
  | Ok a => k a
  | Raise e => Raise e
  end.

Notation "x <- r ;; k" := (bind r (fun x => k))
  (at level 61, r at next level, right associativity).

(** [xs[i]] on a sequence, for a non-negative index. *)
Definition getitem {A : Type} (xs : list A) (i : nat) : result A :=
  match nth_error xs i with
  | Some x => Ok x
  | None => Raise IndexError
  end.

(** ** Python dictionaries, in insertion order *)

Module PyDict.

Definition dict (V : Type) : Type := list (string * V).

Fixpoint get {V : Type} (k : string) (d : dict V) : option V :=
  match d with
  | [] => None
  | (k', v) :: rest => if String.eqb k k' then Some v else get k rest
  end.

(** [k in d] *)
Definition contains {V : Type} (k : string) (d : dict V) : bool :=
  match get k d with
  | Some _ => true
  | None => false
  end.

(** [d[k]] *)
Definition getitem {V : Type} (k : string) (d : dict V) : result V :=
  match get k d with
  | Some v => Ok v
  | None => Raise KeyError
  end.

(** [d[k] = v]: an existing key keeps its place, a new key goes last. *)
Fixpoint set {V : Type} (k : string) (v : V) (d : dict V) : dict V :=
  match d with
  | [] => [(k, v)]
  | (k', v') :: rest =>
      if String.eqb k k' then (k', v) :: rest else (k', v') :: set k v rest
  end.

Definition keys {V : Type} (d : dict V) : list string := map fst d.
Definition values {V : Type} (d : dict V) : list V := map snd d.
Definition items {V : Type} (d : dict V) : list (string * V) := d.

(** Inserting a sequence of pairs, left to right. *)
Definition update {V : Type} (d : dict V) (kvs : list (string * V)) : dict V :=
  fold_left (fun acc kv => set (fst kv) (snd kv) acc) kvs d.

End PyDict.

(** ** unk_replace *)

Definition UNK : string := "UNK".

Definition score : Type := Q.

(** The scan of [np.argmax] over the items after the first: [best_i] and
    [best] are the position and value of the running maximum, [i] the
    position of the head of [xs].  A later item replaces the maximum only
    when it is not [<=] to it. *)
Fixpoint argmax_scan (best_i : nat) (best : score) (i : nat) (xs : list score) : nat :=
  match xs with
  | [] => best_i
  | x :: rest =>
      if Qle_bool x best
      then argmax_scan best_i best (S i) rest
      else argmax_scan i x (S i) rest
  end.

(** [np.argmax(scores)] on a one-dimensional array; an empty one raises
    [ValueError] (attempt to get argmax of an empty sequence). *)
Definition np_argmax (scores : list score) : result nat :=
  match scores with
  | [] => Raise ValueError
  | x :: rest => Ok (argmax_scan 0 x 1 rest)
  end.

(** The body of the loop of [unk_replace]: the token appended to [result]
    for one pair [(token, scores)]. *)
Definition unk_replace_token (source_tokens : list string)
    (mapping : option (PyDict.dict string))
    (token : string) (scores : list score) : result string :=
  if String.eqb token UNK then
    max_score_index <- np_argmax scores ;;
    chosen_source_token <- getitem source_tokens max_score_index ;;
    match mapping with
    | Some m =>
        if PyDict.contains chosen_source_token m
        then PyDict.getitem chosen_source_token m
        else Ok chosen_source_token
    | None => Ok chosen_source_token
    end
  else Ok token.

(** [for token, scores in zip(...)]: the tokens appended to [result]. *)
Fixpoint unk_replace_loop (source_tokens : list string)
    (mapping : option (PyDict.dict string))
    (pairs : list (string * list score)) : result (list string) :=
  match pairs with
  | [] => Ok []
  | (token, scores) :: rest =>
      new_target <- unk_replace_token source_tokens mapping token scores ;;
      others <- unk_replace_loop source_tokens mapping rest ;;
      Ok (new_target :: others)
  end.

(** [zip] is [combine]: it stops at the end of the shorter sequence. *)
Definition unk_replace (source_tokens predicted_tokens : list string)
    (attention_scores : list (list score))
    (mapping : option (PyDict.dict string)) : result (list string) :=
  unk_replace_loop source_tokens mapping
    (combine predicted_tokens attention_scores).

(** ** create_predictions_iter *)

(** A fetched value: a numpy array, seen through its first axis; [Scalar] is
    a zero-dimensional array. *)
#[warnings="-register-all"]
Inductive ndarray (A : Type) : Type :=
| Scalar (a : A)
| Arr (elems : list (ndarray A)).

Arguments Scalar {A} a.
Arguments Arr {A} elems.

(** How a generator ends, after the values it yielded: it returns (the
    consumer's loop ends normally) or it raises. *)
Inductive ending : Type :=
| Returned
| Raised (e : exn).

Section Streamer.

Context {A : Type}.

(** [value.shape[0]]; the shape of a zero-dimensional array is [()]. *)
Definition shape0 (value : ndarray A) : result nat :=
  match value with
  | Scalar _ => Raise IndexError
  | Arr elems => Ok (length elems)
  end.

(** [value[i]]; a zero-dimensional array cannot be indexed. *)
Definition nd_getitem (value : ndarray A) (i : nat) : result (ndarray A) :=
  match value with
  | Scalar _ => Raise IndexError
  | Arr elems => getitem elems i
  end.

Definition batch : Type := PyDict.dict (ndarray A).
Definition record : Type := PyDict.dict (ndarray A).

(** What [sess.run(predictions_dict)] does, one call after the other: it
    returns a batch or raises.  Once the list is used up the queues are
    closed and empty, and every further call raises [OutOfRangeError]. *)
Inductive run_event : Type :=
| Returns (predictions_ : batch)
| Throws (e : exn).

Definition session : Type := list run_event.

Definition sess_run (sess : session) : result batch * session :=
  match sess with
  | [] => (Raise OutOfRangeError, [])
  | Returns predictions_ :: sess' => (Ok predictions_, sess')
  | Throws e :: sess' => (Raise e, sess')
  end.

(** [{key: value[i] for key, value in items}], inserted into [acc]. *)
Fixpoint slice_items (items : list (string * ndarray A)) (i : nat)
    (acc : record) : result record :=
  match items with
  | [] => Ok acc
  | (key, value) :: rest =>
      x <- nd_getitem value i ;;
      slice_items rest i (PyDict.set key x acc)
  end.

Definition slice (predictions_ : batch) (i : nat) : result record :=
  slice_items (PyDict.items predictions_) i [].

(** [list(predictions_.values())[0].shape[0]] *)
Definition batch_length (predictions_ : batch) : result nat :=
  first <- getitem (PyDict.values predictions_) 0 ;;
  shape0 first.

(** [for i in indices: yield {...}]: the records yielded, and the
    exception that interrupted the loop, if any. *)
Fixpoint yield_records (predictions_ : batch) (indices : list nat)
    : list record * option exn :=
  match indices with
  | [] => ([], None)
  | i :: rest =>
      match slice predictions_ i with
      | Raise e => ([], Some e)
      | Ok r =>
          let '(rs, e) := yield_records predictions_ rest in (r :: rs, e)
      end
  end.

(** [except tf.errors.OutOfRangeError: break]; anything else propagates. *)
Definition on_exception (e : exn) : list record * ending :=
  match e with
  | OutOfRangeError => ([], Returned)
  | _ => ([], Raised e)
  end.

Definition yield_then (rs : list record) (k : list record * ending)
    : list record * ending :=
  (rs ++ fst k, snd k).

(** The [while True] loop.  Each turn consumes one event of the session,
    so the recursion is on the session. *)
Fixpoint create_predictions_iter (sess : session) : list record * ending :=
  match sess with
  | [] => on_exception OutOfRangeError
  | Throws e :: _ => on_exception e
  | Returns predictions_ :: sess' =>
      match batch_length predictions_ with
      | Raise e => on_exception e
      | Ok n =>
          match yield_records predictions_ (seq 0 n) with
          | (rs, Some e) => yield_then rs (on_exception e)
          | (rs, None) => yield_then rs (create_predictions_iter sess')
          end
      end
  end.

End Streamer.

Arguments batch A : clear implicits.
Arguments record A : clear implicits.
Arguments run_event A : clear implicits.
Arguments session A : clear implicits.

(** ** get_unk_mapping *)

Definition TAB : ascii := "009"%char.
Definition NL : ascii := "010"%char.

(** [s.split(sep)] for a one-character separator: at least one field. *)
Fixpoint split (sep : ascii) (s : string) : list string :=
  match s with
  | EmptyString => [EmptyString]
  | String c rest =>
      if Ascii.eqb c sep then EmptyString :: split sep rest
      else match split sep rest with
           | [] => [String c EmptyString]
           | field :: fields => String c field :: fields
           end
  end.

(** The text of a file is the string of its bytes; a character of the
    decoded text is spelled by its UTF-8 bytes. *)
Definition CR : ascii := "013"%char.

Definition bytes (codes : list nat) : string :=
  fold_right (fun n s => String (ascii_of_nat n) s) EmptyString codes.

(** The buffered reader under [GFile] never hands over a carriage
    return. *)
Fixpoint drop_cr (s : string) : string :=
  match s with
  | EmptyString => EmptyString
  | String c rest =>
      if Ascii.eqb c CR then drop_cr rest else String c (drop_cr rest)
  end.

(** Cutting after every newline; the last line may lack one. *)
Fixpoint split_lines (content : string) : list string :=
  match content with
  | EmptyString => []
  | String c rest =>
      if Ascii.eqb c NL then String c EmptyString :: split_lines rest
      else match split_lines rest with
           | [] => [String c EmptyString]
           | line :: lines => String c line :: lines
           end
  end.

(** The lines [mapping_file.readlines()] is made of, before decoding. *)
Definition readlines (content : string) : list string :=
  split_lines (drop_cr content).

(** A continuation byte, and the second byte that a three-byte or
    four-byte lead allows (no overlong form, no surrogate, nothing above
    U+10FFFF). *)
Definition continuation (n : nat) : bool := (128 <=? n) && (n <=? 191).

Definition second_of_three (lead n : nat) : bool :=
  if lead =? 224 then (160 <=? n) && (n <=? 191)
  else if lead =? 237 then (128 <=? n) && (n <=? 159)
  else continuation n.

Definition second_of_four (lead n : nat) : bool :=
  if lead =? 240 then (144 <=? n) && (n <=? 191)
  else if lead =? 244 then (128 <=? n) && (n <=? 143)
  else continuation n.

(** The bytes decode as UTF-8 (the strict decoder of Python 3). *)
Fixpoint utf8_valid (s : string) : bool :=
  match s with
  | EmptyString => true
  | String b0 r0 =>
      let n0 := nat_of_ascii b0 in
      if n0 <? 128 then utf8_valid r0
      else
        match r0 with
        | EmptyString => false
        | String b1 r1 =>
            let n1 := nat_of_ascii b1 in
            if (194 <=? n0) && (n0 <=? 223)
            then continuation n1 && utf8_valid r1
            else
              match r1 with
              | EmptyString => false
              | String b2 r2 =>
                  let n2 := nat_of_ascii b2 in
                  if (224 <=? n0) && (n0 <=? 239)
                  then second_of_three n0 n1 && continuation n2
                       && utf8_valid r2
                  else
                    match r2 with
                    | EmptyString => false
                    | String b3 r3 =>
                        (240 <=? n0) && (n0 <=? 244)
                        && second_of_four n0 n1 && continuation n2
                        && continuation (nat_of_ascii b3) && utf8_valid r3
                    end
              end
        end
  end.

(** The characters [str.strip()] removes, in UTF-8: U+0009 to U+000D,
    U+001C to U+0020, U+0085, U+00A0, U+1680, U+2000 to U+200A, U+2028,
    U+2029, U+202F, U+205F and U+3000. *)
Definition whitespace : list string :=
  map bytes
    [[9]; [10]; [11]; [12]; [13]; [28]; [29]; [30]; [31]; [32];
     [194; 133]; [194; 160]; [225; 154; 128];
     [226; 128; 128]; [226; 128; 129]; [226; 128; 130]; [226; 128; 131];
     [226; 128; 132]; [226; 128; 133]; [226; 128; 134]; [226; 128; 135];
     [226; 128; 136]; [226; 128; 137]; [226; 128; 138];
     [226; 128; 168]; [226; 128; 169]; [226; 128; 175];
     [226; 129; 159]; [227; 128; 128]].

(** [s] without the prefix [w], when it starts with it. *)
Fixpoint drop_prefix (w s : string) : option string :=
  match w with
  | EmptyString => Some s
  | String a w' =>
      match s with
      | EmptyString => None
      | String b s' => if Ascii.eqb a b then drop_prefix w' s' else None
      end
  end.

Fixpoint drop_any (ws : list string) (s : string) : option string :=
  match ws with
  | [] => None
  | w :: ws' =>
      match drop_prefix w s with
      | Some rest => Some rest
      | None => drop_any ws' s
      end
  end.

(** Removing leading whitespace, one character at a time; a string has
    no more characters than bytes. *)
Fixpoint lstrip_upto (n : nat) (s : string) : string :=
  match n with
  | 0 => s
  | S n' =>
      match drop_any whitespace s with
      | Some rest => lstrip_upto n' rest
      | None => s
      end
  end.

Definition lstrip (s : string) : string := lstrip_upto (String.length s) s.

(** [s] is one whitespace character. *)
Definition is_whitespace (s : string) : bool :=
  existsb (String.eqb s) whitespace.

(** Removing trailing whitespace, from the end: what is left of the tail
    is empty or ends a character that is not whitespace, so the head byte
    goes exactly when it completes a whitespace character. *)
Fixpoint rstrip (s : string) : string :=
  match s with
  | EmptyString => EmptyString
  | String c rest =>
      if is_whitespace (String c (rstrip rest)) then EmptyString
      else String c (rstrip rest)
  end.

Definition strip (s : string) : string := rstrip (lstrip s).

(** [dict(seq)], inserted into [acc]: every element of [seq] must have
    exactly two items, or [ValueError] is raised. *)
Fixpoint dict_of_seq (seq : list (list string)) (acc : PyDict.dict string)
    : result (PyDict.dict string) :=
  match seq with
  | [] => Ok acc
  | [k; v] :: rest => dict_of_seq rest (PyDict.set k v acc)
  | _ :: _ => Raise ValueError
  end.

(** [{k.strip(): v.strip() for k, v in mapping.items()}] *)
Definition strip_items (mapping : PyDict.dict string) : PyDict.dict string :=
  PyDict.update []
    (map (fun kv => (strip (fst kv), strip (snd kv))) (PyDict.items mapping)).

(** The body of the [with] block, on the bytes of the file: every line is
    decoded when it is read, before the dictionary is built. *)
Definition parse_unk_mapping (content : string) : result (PyDict.dict string) :=
  let lines := readlines content in
  if forallb utf8_valid lines then
    mapping <- dict_of_seq (map (fun l => firstn 2 (split TAB l)) lines) [] ;;
    Ok (strip_items mapping)
  else Raise (OtherError "UnicodeDecodeError").

(** The file system maps a path to the bytes of the file, if there is
    one. *)
Definition get_unk_mapping (fs : string -> option string) (filename : string)
    : result (PyDict.dict string) :=
  match fs filename with
  | None => Raise NotFoundError
  | Some content => parse_unk_mapping content
  end.

(** ** load_model *)

Section LoadModel.

(** What [load_model] works with and does not look into: the values of
    hyperparameters, the vocabulary descriptions, the modes and the model
    instances. *)
Context {Value VocabInfo Mode Model : Type}.

(** [training_utils.TrainOptions], as far as [load_model] reads it. *)
Record TrainOptions : Type := {
  model_class : string;
  hparams : PyDict.dict Value;
  source_vocab_path : string;
  target_vocab_path : string
}.

(** A model class: its [default_params()] and its constructor. *)
Record ModelClass : Type := {
  default_params : PyDict.dict Value;
  construct : VocabInfo -> VocabInfo -> PyDict.dict Value -> Mode
              -> result Model
}.

(** [training_utils.TrainOptions.load] and [vocab.get_vocab_info]. *)
Variable TrainOptions_load : string -> result TrainOptions.
Variable get_vocab_info : string -> result VocabInfo.

(** [pydoc.locate], which gives [None] for a name it cannot resolve, and
    [getattr(models, name)], which raises for a name it does not have. *)
Variable locate : string -> option ModelClass.
Variable models_getattr : string -> result ModelClass.

(** [locate(name) or getattr(models, name)] *)
Definition find_model_class (name : string) : result ModelClass :=
  match locate name with
  | Some c => Ok c
  | None => models_getattr name
  end.

(** [hparams = default_params(); hparams.update(train_options.hparams);
    if params is not None: hparams.update(params)] *)
Definition merge_hparams (defaults train : PyDict.dict Value)
    (params : option (PyDict.dict Value)) : PyDict.dict Value :=
  let hparams := PyDict.update defaults (PyDict.items train) in
  match params with
  | Some p => PyDict.update hparams (PyDict.items p)
  | None => hparams
  end.

Definition load_model (model_dir : string) (mode : Mode)
    (params : option (PyDict.dict Value)) : result Model :=
  train_options <- TrainOptions_load model_dir ;;
  source_vocab_info <- get_vocab_info (source_vocab_path train_options) ;;
  target_vocab_info <- get_vocab_info (target_vocab_path train_options) ;;
  model_class_ <- find_model_class (model_class train_options) ;;
  construct model_class_ source_vocab_info target_vocab_info
    (merge_hparams (default_params model_class_) (hparams train_options)
       params)
    mode.

End LoadModel.

(** * The vocabulary of the properties *)

(** [j] is a position of [row] whose score no other position exceeds and
    no earlier position reaches. *)
Definition is_first_max (row : list score) (j : nat) : Prop :=
  exists x, nth_error row j = Some x /\
    (forall k y, nth_error row k = Some y -> (y <= x)%Q) /\
    (forall k y, k < j -> nth_error row k = Some y -> (y < x)%Q).

(** A list of keys without repetition, as the keys of a [dict] are. *)
Fixpoint distinct (ks : list string) : bool :=
  match ks with
  | [] => true
  | k :: rest => negb (existsb (String.eqb k) rest) && distinct rest
  end.

Section StreamerVocabulary.

Context {A : Type}.

(** The leading count of a field: the length of its first axis. *)
Definition leading_count (value : ndarray A) : option nat :=
  match value with
  | Scalar _ => None
  | Arr elems => Some (length elems)
  end.

(** Every field has a leading count, and [p] holds of it. *)
Definition all_counts (p : nat -> bool) (b : batch A) : bool :=
  forallb (fun kv => match leading_count (snd kv) with
                     | Some c => p c
                     | None => false
                     end) b.

(** Some field has a leading count of which [p] holds. *)
Definition some_count (p : nat -> bool) (b : batch A) : bool :=
  existsb (fun kv => match leading_count (snd kv) with
                     | Some c => p c
                     | None => false
                     end) b.

(** A Batch of batch size [n]: a dict with at least one field, whose fields
    all have the leading count [n]. *)
Definition has_batch_size (b : batch A) (n : nat) : bool :=
  negb (Nat.eqb (length b) 0) && distinct (PyDict.keys b)
  && all_counts (Nat.eqb n) b.

(** The entry of index [i] of a field. *)
Definition field_at (i : nat) (value : ndarray A) : ndarray A :=
  match value with
  | Scalar _ => value
  | Arr elems => nth i elems value
  end.

(** The PredictionRecord of index [i]: every field, sliced at [i]. *)
Definition index_record (b : batch A) (i : nat) : record A :=
  map (fun kv => (fst kv, field_at i (snd kv))) b.

(** The records of indices [0 .. n-1], in this order. *)
Definition records_of (b : batch A) (n : nat) : list (record A) :=
  map (index_record b) (seq 0 n).

(** The next call of [sess.run] signals the end of the input. *)
Definition exhausted (sess : session A) : bool :=
  match fst (sess_run sess) with
  | Raise OutOfRangeError => true
  | _ => false
  end.

End StreamerVocabulary.

(** The first two fields of a line of the mapping file. *)
Definition line_key (line : string) : string :=
  nth 0 (split TAB line) EmptyString.

Definition line_target (line : string) : string :=
  nth 1 (split TAB line) EmptyString.

(** A line with at least two tab-separated fields. *)
Definition well_formed_line (line : string) : bool :=
  2 <=? length (split TAB line).

(** The last item of a list of which [p] holds. *)
Fixpoint find_last {X : Type} (p : X -> bool) (xs : list X) : option X :=
  match xs with
  | [] => None
  | x :: rest =>
      match find_last p rest with
      | Some y => Some y
      | None => if p x then Some x else None
      end
  end.

(** A line of the mapping file: [source<TAB>target<NL>]. *)
Definition mapping_line (source target : string) : string :=
  (source ++ String TAB (target ++ String NL EmptyString))%string.

(** A two-field batch of one-dimensional arrays. *)
Definition tokens_and_scores (tokens scores : list nat) : batch nat :=
  [("tokens", Arr (map Scalar tokens)); ("scores", Arr (map Scalar scores))].

(** [c in s] *)
Fixpoint has_char (c : ascii) (s : string) : bool :=
  match s with
  | EmptyString => false
  | String c' rest => Ascii.eqb c' c || has_char c rest
  end.

(** A token that can stand in a field of the mapping file and be read
    back: no tab, no newline, no carriage return, no whitespace at either
    end. *)
Definition clean_token (s : string) : bool :=
  negb (has_char TAB s) && negb (has_char NL s) && negb (has_char CR s)
  && String.eqb (strip s) s.

(** The mapping file of a table: one line [source<TAB>target<NL>] per
    entry, in the order of the table. *)
Fixpoint render_mapping (d : PyDict.dict string) : string :=
  match d with
  | [] => EmptyString
  | (k, v) :: rest => (mapping_line k v ++ render_mapping rest)%string
  end.

(** Three batches, of batch sizes 2, 0 and 3. *)
Definition three_batches : list (batch nat * nat) :=
  [(tokens_and_scores [1; 2] [10; 20], 2);
   (tokens_and_scores [] [], 0);
   (tokens_and_scores [3; 4; 5] [30; 40; 50], 3)].

(** Stand-ins for the collaborators of [load_model]: the options saved
    with one model, and a class whose instances are the hyperparameters
    they were constructed with. *)
Definition saved_options : @TrainOptions nat :=
  {| model_class := "AttentionSeq2Seq";
     hparams := [("dropout", 2); ("beam_width", 1)];
     source_vocab_path := "vocab.source";
     target_vocab_path := "vocab.target" |}.

Definition attention_class
    : @ModelClass nat string unit (PyDict.dict nat) :=
  {| default_params := [("beam_width", 0); ("dropout", 5); ("layers", 3)];
     construct := fun _ _ hp _ => Ok hp |}.

(** * Properties *)

(** ** unk_replace: the result, position by position *)

Lemma bind_ok {A B : Type} (r : result A) (k : A -> result B) (b : B) :
  bind r k = Ok b -> exists a, r = Ok a /\ k a = Ok b.
Proof.
  destruct r as [a|e]; simpl; intros H.
  - exists a; auto.
  - discriminate.
Qed.

Lemma nth_error_combine {A B : Type} (l1 : list A) (l2 : list B) (t : nat) a b :
  nth_error l1 t = Some a -> nth_error l2 t = Some b ->
  nth_error (combine l1 l2) t = Some (a, b).
Proof.
  revert l2 t; induction l1 as [|x l1 IH]; intros [|y l2] [|t]; simpl;
    try discriminate.
  - intros [= ->] [= ->]; reflexivity.
  - apply IH.
Qed.

Lemma unk_replace_loop_length src m pairs out :
  unk_replace_loop src m pairs = Ok out -> length out = length pairs.
Proof.
  revert out; induction pairs as [|[tok row] rest IH]; simpl; intros out H.
  - injection H as <-; reflexivity.
  - apply bind_ok in H as (o & _ & H).
    apply bind_ok in H as (os & Hos & H).
    injection H as <-; simpl; f_equal; auto.
Qed.

Lemma unk_replace_loop_nth src m pairs out t tok row :
  unk_replace_loop src m pairs = Ok out ->
  nth_error pairs t = Some (tok, row) ->
  exists o, nth_error out t = Some o /\ unk_replace_token src m tok row = Ok o.
Proof.
  revert out t; induction pairs as [|[tok0 row0] rest IH]; intros out t H Ht.
  - destruct t; discriminate.
  - simpl in H.
    apply bind_ok in H as (o & Ho & H).
    apply bind_ok in H as (os & Hos & H).
    injection H as <-.
    destruct t as [|t]; simpl in Ht.
    + injection Ht as -> ->. exists o; auto.
    + destruct (IH os t Hos Ht) as (o' & ? & ?). exists o'; auto.
Qed.

(** A failure of the loop is the failure of one of its turns. *)
Lemma unk_replace_loop_raise src m pairs e :
  unk_replace_loop src m pairs = Raise e ->
  exists t tok row,
    nth_error pairs t = Some (tok, row) /\
    unk_replace_token src m tok row = Raise e.
Proof.
  induction pairs as [|[tok0 row0] rest IH]; simpl; intros H.
  - discriminate.
  - destruct (unk_replace_token src m tok0 row0) as [o|e0] eqn:E0; simpl in H.
    + destruct (unk_replace_loop src m rest) as [os|e1]; simpl in H;
        [discriminate|].
      injection H as ->.
      destruct IH as (t & tok & row & Ht & Hr); [reflexivity|].
      exists (S t), tok, row; auto.
    + injection H as ->. exists 0, tok0, row0; auto.
Qed.

Lemma nth_error_combine_inv {A B : Type} (l1 : list A) (l2 : list B) t a b :
  nth_error (combine l1 l2) t = Some (a, b) ->
  nth_error l1 t = Some a /\ nth_error l2 t = Some b.
Proof.
  revert l2 t; induction l1 as [|x l1 IH]; intros [|y l2] [|t]; simpl;
    try discriminate.
  - intros [= -> ->]; auto.
  - apply IH.
Qed.

Lemma unk_replace_token_other src m tok row :
  String.eqb tok UNK = false -> unk_replace_token src m tok row = Ok tok.
Proof. unfold unk_replace_token; intros ->; reflexivity. Qed.

(** Without the sentinel, the loop copies the tokens it is given. *)
Lemma unk_replace_loop_no_unk src m pred att :
  forallb (fun tok => negb (String.eqb tok UNK)) pred = true ->
  unk_replace_loop src m (combine pred att) = Ok (firstn (length att) pred).
Proof.
  revert att; induction pred as [|tok pred IH]; intros att H.
  - simpl. rewrite firstn_nil. reflexivity.
  - simpl in H. apply andb_true_iff in H as [Htok H].
    apply negb_true_iff in Htok.
    destruct att as [|row att]; simpl; [reflexivity|].
    rewrite (unk_replace_token_other _ _ _ _ Htok); simpl.
    rewrite (IH att H); reflexivity.
Qed.

Lemma combine_firstn_l {A B : Type} (l1 : list A) (l2 : list B) :
  combine (firstn (length l2) l1) l2 = combine l1 l2.
Proof.
  revert l2; induction l1 as [|x l1 IH]; intros [|y l2]; simpl; auto.
  f_equal; apply IH.
Qed.

(** ** np.argmax: the first of the maxima *)

Lemma argmax_scan_first_max (xs seen : list score) best_i best :
  nth_error seen best_i = Some best ->
  (forall k y, nth_error seen k = Some y -> (y <= best)%Q) ->
  (forall k y, k < best_i -> nth_error seen k = Some y -> (y < best)%Q) ->
  is_first_max (seen ++ xs) (argmax_scan best_i best (length seen) xs).
Proof.
  revert seen best_i best; induction xs as [|x xs IH];
    intros seen best_i best Hb Hle Hlt.
  - simpl. rewrite app_nil_r. exists best; auto.
  - simpl. replace (seen ++ x :: xs) with ((seen ++ [x]) ++ xs)
      by (rewrite <- app_assoc; reflexivity).
    assert (Hlen : S (length seen) = length (seen ++ [x]))
      by (rewrite length_app; simpl; lia).
    assert (Hin : best_i < length seen)
      by (apply nth_error_Some; rewrite Hb; discriminate).
    destruct (Qle_bool x best) eqn:Ex; rewrite Hlen; apply IH.
    + rewrite nth_error_app1; auto.
    + intros k y Hk.
      destruct (Nat.lt_ge_cases k (length seen)) as [Hlk|Hlk].
      * rewrite nth_error_app1 in Hk by assumption. eauto.
      * rewrite nth_error_app2 in Hk by assumption.
        destruct (k - length seen) as [|[|d]]; simpl in Hk; try discriminate.
        injection Hk as <-. apply Qle_bool_iff; assumption.
    + intros k y Hk Hy. rewrite nth_error_app1 in Hy by lia. eauto.
    + rewrite nth_error_app2 by lia. rewrite Nat.sub_diag; reflexivity.
    + assert (Hx : (best < x)%Q).
      { apply Qnot_le_lt. intros Hc. apply Qle_bool_iff in Hc. congruence. }
      intros k y Hk.
      destruct (Nat.lt_ge_cases k (length seen)) as [Hlk|Hlk].
      * rewrite nth_error_app1 in Hk by assumption.
        apply Qlt_le_weak. eapply Qle_lt_trans; eauto.
      * rewrite nth_error_app2 in Hk by assumption.
        destruct (k - length seen) as [|[|d]]; simpl in Hk; try discriminate.
        injection Hk as <-. apply Qle_refl.
    + assert (Hx : (best < x)%Q).
      { apply Qnot_le_lt. intros Hc. apply Qle_bool_iff in Hc. congruence. }
      intros k y Hk Hy. rewrite nth_error_app1 in Hy by assumption.
      eapply Qle_lt_trans; eauto.
Qed.

Lemma np_argmax_first_max (row : list score) :
  row <> [] -> exists j, np_argmax row = Ok j /\ is_first_max row j.
Proof.
  destruct row as [|x xs]; [congruence|]; intros _.
  exists (argmax_scan 0 x 1 xs); split; [reflexivity|].
  apply (argmax_scan_first_max xs [x] 0 x).
  - reflexivity.
  - intros [|[|k]] y Hk; simpl in Hk; try discriminate.
    injection Hk as <-; apply Qle_refl.
  - intros k y Hk; lia.
Qed.

(** What a turn of the loop does on the sentinel, when it does not raise. *)
Lemma unk_replace_token_unk src m row o :
  unk_replace_token src m UNK row = Ok o ->
  exists j chosen,
    np_argmax row = Ok j /\ nth_error src j = Some chosen /\
    o = match m with
        | Some d =>
            match PyDict.get chosen d with
            | Some v => v
            | None => chosen
            end
        | None => chosen
        end.
Proof.
  unfold unk_replace_token; simpl; intros H.
  apply bind_ok in H as (j & Hj & H).
  apply bind_ok in H as (chosen & Hc & H).
  exists j, chosen; split; [assumption|].
  unfold getitem in Hc.
  destruct (nth_error src j) as [c|] eqn:Ec; [|discriminate].
  injection Hc as ->. split; [reflexivity|].
  destruct m as [d|]; [|congruence].
  unfold PyDict.contains, PyDict.getitem in H.
  destruct (PyDict.get chosen d); congruence.
Qed.

(** A call on one sentinel whose row selects a source token returns. *)
Lemma unk_replace_single src m row j chosen :
  np_argmax row = Ok j -> nth_error src j = Some chosen ->
  unk_replace src [UNK] [row] m
  = Ok [match m with
        | Some d =>
            match PyDict.get chosen d with
            | Some v => v
            | None => chosen
            end
        | None => chosen
        end].
Proof.
  intros Hj Hc. unfold unk_replace. cbn [combine unk_replace_loop].
  unfold unk_replace_token.
  replace (String.eqb UNK UNK) with true by reflexivity.
  rewrite Hj. cbn [bind]. unfold getitem. rewrite Hc. cbn [bind].
  destruct m as [d|]; [|reflexivity].
  unfold PyDict.contains, PyDict.getitem.
  destruct (PyDict.get chosen d); reflexivity.
Qed.

(** ** unk_replace: the claims *)

(** C1, as the specification states it, fails: with one row of scores for
    three predicted tokens the call returns a one-token array and raises
    nothing. *)
Lemma unk_replace_fewer_rows_returns :
  length [[1#10; 9#10]%Q] < length ["UNK"; "is"; "great"] /\
  unk_replace ["paris"; "france"] ["UNK"; "is"; "great"] [[1#10; 9#10]%Q] None
  = Ok ["france"].
Proof. split; [simpl; lia | reflexivity]. Qed.

(** C1, amended: [unk_replace] checks no shape.  [zip] pairs tokens with
    rows, so with fewer rows than predicted tokens the call is the call on
    the first [length attention_scores] tokens: a result has exactly that
    many tokens, and when none of those tokens is the sentinel the result
    is those tokens, with no exception raised. *)
Theorem unk_replace_zip_truncates src pred att m :
  length att < length pred ->
  unk_replace src pred att m
  = unk_replace src (firstn (length att) pred) att m /\
  (forall out, unk_replace src pred att m = Ok out ->
               length out = length att) /\
  (forallb (fun tok => negb (String.eqb tok UNK)) (firstn (length att) pred)
   = true ->
   unk_replace src pred att m = Ok (firstn (length att) pred)).
Proof.
  intros Hlt. unfold unk_replace.
  rewrite combine_firstn_l. split; [reflexivity|]. split.
  - intros out H. apply unk_replace_loop_length in H.
    rewrite H, length_combine. lia.
  - intros H. rewrite <- (combine_firstn_l pred att).
    rewrite (unk_replace_loop_no_unk _ _ _ _ H).
    rewrite firstn_firstn, Nat.min_id. reflexivity.
Qed.

Lemma unk_replace_zip_truncates_witness :
  unk_replace ["paris"; "france"] ["a"; "UNK"; "b"] [[1#1; 0#1]%Q] None
  = unk_replace ["paris"; "france"]
      (firstn (length [[1#1; 0#1]%Q]) ["a"; "UNK"; "b"]) [[1#1; 0#1]%Q] None /\
  (forall out,
      unk_replace ["paris"; "france"] ["a"; "UNK"; "b"] [[1#1; 0#1]%Q] None
      = Ok out -> length out = length [[1#1; 0#1]%Q]) /\
  (forallb (fun tok => negb (String.eqb tok UNK))
     (firstn (length [[1#1; 0#1]%Q]) ["a"; "UNK"; "b"]) = true ->
   unk_replace ["paris"; "france"] ["a"; "UNK"; "b"] [[1#1; 0#1]%Q] None
   = Ok (firstn (length [[1#1; 0#1]%Q]) ["a"; "UNK"; "b"])).
Proof.
  apply (unk_replace_zip_truncates
           ["paris"; "france"] ["a"; "UNK"; "b"] [[1#1; 0#1]%Q] None).
  simpl; lia.
Defined.



(** C5: at a position that holds the sentinel, with [chosen] the source
    token at the position [np.argmax] selects, the output token is
    [mapping[chosen]] when a mapping is given and has [chosen] as a key, and
    [chosen] itself otherwise (no mapping, or [chosen] not a key).  The
    runs of the specification's example follow, with a mapping that lacks
    the key as well; on a one-token call each of the three cases is
    produced, none of them raising. *)
Theorem unk_replace_mapping_or_source :
  (forall src pred att m out t row,
      unk_replace src pred att m = Ok out ->
      nth_error pred t = Some UNK ->
      nth_error att t = Some row ->
      exists j chosen,
        np_argmax row = Ok j /\ nth_error src j = Some chosen /\
        (forall d v, m = Some d -> PyDict.get chosen d = Some v ->
                     nth_error out t = Some v) /\
        (forall d, m = Some d -> PyDict.get chosen d = None ->
                   nth_error out t = Some chosen) /\
        (m = None -> nth_error out t = Some chosen)) /\
  (forall row1 row2,
      unk_replace ["paris"; "france"] ["UNK"; "is"; "great"]
        [[1#10; 9#10]%Q; row1; row2] (Some [("france", "La France")])
      = Ok ["La France"; "is"; "great"]) /\
  (forall row1 row2,
      unk_replace ["paris"; "france"] ["UNK"; "is"; "great"]
        [[1#10; 9#10]%Q; row1; row2] None
      = Ok ["france"; "is"; "great"]) /\
  (forall row1 row2,
      unk_replace ["paris"; "france"] ["UNK"; "is"; "great"]
        [[1#10; 9#10]%Q; row1; row2] (Some [("rome", "Roma")])
      = Ok ["france"; "is"; "great"]) /\
  (forall src row j chosen,
      np_argmax row = Ok j -> nth_error src j = Some chosen ->
      (forall d v, PyDict.get chosen d = Some v ->
                   unk_replace src [UNK] [row] (Some d) = Ok [v]) /\
      (forall d, PyDict.get chosen d = None ->
                 unk_replace src [UNK] [row] (Some d) = Ok [chosen]) /\
      unk_replace src [UNK] [row] None = Ok [chosen]).
Proof.
  split; [|split; [|split; [|split]]]; try (intros; reflexivity);
    [|intros src row j chosen Hj Hc; repeat split;
      [intros d v Hv|intros d Hv|];
      rewrite (unk_replace_single _ _ _ _ _ Hj Hc); try rewrite Hv;
      reflexivity].
  intros src pred att m out t row Hout Hp Ha.
  destruct (unk_replace_loop_nth _ _ _ _ _ _ _ Hout
              (nth_error_combine _ _ _ _ _ Hp Ha)) as (o & Hot & Ho).
  apply unk_replace_token_unk in Ho as (j & chosen & Hj & Hc & Ho).
  exists j, chosen. split; [assumption|]. split; [assumption|].
  repeat split.
  - intros d v -> Hv. rewrite Hv in Ho. congruence.
  - intros d -> Hv. rewrite Hv in Ho. congruence.
  - intros ->. congruence.
Qed.

Lemma unk_replace_mapping_or_source_witness :
  exists j chosen,
    np_argmax [1#10; 9#10]%Q = Ok j /\
    nth_error ["paris"; "france"] j = Some chosen /\
    (forall d v, Some [("france", "La France")] = Some d ->
                 PyDict.get chosen d = Some v ->
                 nth_error ["La France"; "is"; "great"] 0 = Some v) /\
    (forall d, Some [("france", "La France")] = Some d ->
               PyDict.get chosen d = None ->
               nth_error ["La France"; "is"; "great"] 0 = Some chosen) /\
    (Some [("france", "La France")] = None ->
     nth_error ["La France"; "is"; "great"] 0 = Some chosen).
Proof.
  apply (proj1 unk_replace_mapping_or_source
           ["paris"; "france"] ["UNK"; "is"; "great"]
           [[1#10; 9#10]%Q; []; []] (Some [("france", "La France")])
           ["La France"; "is"; "great"] 0);
    reflexivity.
Defined.




(** C10, as the specification states it, fails when the rows are fewer
    than the tokens: without any sentinel and with an empty source, two
    tokens and one row give back the first token only. *)
Lemma unk_replace_without_unk_truncated :
  forallb (fun tok => negb (String.eqb tok UNK)) ["is"; "great"] = true /\
  unk_replace [] ["is"; "great"] [[]] None = Ok ["is"].
Proof. split; reflexivity. Qed.

(** C10, amended: when no predicted token is the sentinel and each has its
    row of scores, [unk_replace] returns the predicted tokens as they are,
    for every [source_tokens], the empty one included; an exception comes
    only from a turn of the loop on the sentinel, as on the empty source
    with an empty row, where [np.argmax] raises. *)
Theorem unk_replace_without_unk :
  (forall src pred att m,
      forallb (fun tok => negb (String.eqb tok UNK)) pred = true ->
      length pred <= length att ->
      unk_replace src pred att m = Ok pred) /\
  (forall src pred att m e,
      unk_replace src pred att m = Raise e ->
      exists t row,
        nth_error pred t = Some UNK /\ nth_error att t = Some row /\
        unk_replace_token src m UNK row = Raise e) /\
  (forall m, unk_replace [] [UNK] [[]] m = Raise ValueError) /\
  (forall m, unk_replace [] ["a"; "b"] [[]; []] m = Ok ["a"; "b"]).
Proof.
  split; [|split; [|split; intros; reflexivity]].
  - intros src pred att m H Hlen. unfold unk_replace.
    rewrite (unk_replace_loop_no_unk _ _ _ _ H).
    rewrite firstn_all2 by assumption. reflexivity.
  - intros src pred att m e H.
    apply unk_replace_loop_raise in H as (t & tok & row & Ht & Hr).
    apply nth_error_combine_inv in Ht as [Hp Ha].
    destruct (String.eqb tok UNK) eqn:E.
    + apply String.eqb_eq in E; subst tok. exists t, row; auto.
    + rewrite (unk_replace_token_other _ _ _ _ E) in Hr. discriminate.
Qed.

Lemma unk_replace_without_unk_witness :
  unk_replace [] ["is"; "great"] [[]; []] None = Ok ["is"; "great"].
Proof.
  apply (proj1 unk_replace_without_unk [] ["is"; "great"] [[]; []] None);
    [reflexivity | simpl; lia].
Defined.

(** ** Dictionaries *)

Lemma distinct_NoDup ks : distinct ks = true -> NoDup ks.
Proof.
  induction ks as [|k ks IH]; simpl; intros H; constructor.
  - apply andb_true_iff in H as [H _]. apply negb_true_iff in H.
    intros Hin.
    assert (existsb (String.eqb k) ks = true); [|congruence].
    apply existsb_exists. exists k; split; [assumption|apply String.eqb_refl].
  - apply andb_true_iff in H as [_ H]; auto.
Qed.

Lemma get_set {V : Type} (k k' : string) (v : V) (d : PyDict.dict V) :
  PyDict.get k (PyDict.set k' v d)
  = if String.eqb k k' then Some v else PyDict.get k d.
Proof.
  induction d as [|[k0 v0] d IH]; simpl.
  - destruct (String.eqb k k'); reflexivity.
  - destruct (String.eqb k' k0) eqn:E0; simpl.
    + apply String.eqb_eq in E0; subst k0.
      destruct (String.eqb k k'); reflexivity.
    + rewrite IH. destruct (String.eqb k k0) eqn:E1; [|reflexivity].
      apply String.eqb_eq in E1; subst k0.
      rewrite String.eqb_sym, E0. reflexivity.
Qed.

Lemma set_fresh {V : Type} (k : string) (v : V) (d : PyDict.dict V) :
  ~ In k (PyDict.keys d) -> PyDict.set k v d = d ++ [(k, v)].
Proof.
  induction d as [|[k0 v0] d IH]; simpl; intros H; [reflexivity|].
  destruct (String.eqb k k0) eqn:E.
  - apply String.eqb_eq in E. subst; tauto.
  - rewrite IH; tauto.
Qed.

Lemma keys_set {V : Type} (k k' : string) (v : V) (d : PyDict.dict V) :
  In k' (PyDict.keys (PyDict.set k v d)) <-> k' = k \/ In k' (PyDict.keys d).
Proof.
  induction d as [|[k0 v0] d IH]; simpl.
  - intuition.
  - destruct (String.eqb k k0) eqn:E; simpl.
    + apply String.eqb_eq in E; subst k0. intuition.
    + rewrite IH. intuition.
Qed.

Lemma set_NoDup {V : Type} (k : string) (v : V) (d : PyDict.dict V) :
  NoDup (PyDict.keys d) -> NoDup (PyDict.keys (PyDict.set k v d)).
Proof.
  induction d as [|[k0 v0] d IH]; simpl; intros H.
  - constructor; [tauto|constructor].
  - inversion H as [|? ? Hk0 Hd]; subst.
    destruct (String.eqb k k0) eqn:E; simpl.
    + constructor; assumption.
    + constructor; [|auto].
      change (~ In k0 (PyDict.keys (PyDict.set k v d))).
      rewrite keys_set. intros [->|Hin]; [|tauto].
      rewrite String.eqb_refl in E; discriminate.
Qed.

Lemma update_cons {V : Type} (d : PyDict.dict V) kv kvs :
  PyDict.update d (kv :: kvs)
  = PyDict.update (PyDict.set (fst kv) (snd kv) d) kvs.
Proof. reflexivity. Qed.

Lemma update_app {V : Type} (d : PyDict.dict V) kvs1 kvs2 :
  PyDict.update d (kvs1 ++ kvs2) = PyDict.update (PyDict.update d kvs1) kvs2.
Proof. unfold PyDict.update. apply fold_left_app. Qed.

(** Inserting keys that are new and distinct appends the pairs. *)
Lemma update_fresh {V : Type} (kvs : list (string * V)) (d : PyDict.dict V) :
  NoDup (PyDict.keys d ++ map fst kvs) -> PyDict.update d kvs = d ++ kvs.
Proof.
  revert d; induction kvs as [|[k v] kvs IH]; intros d H.
  - simpl. rewrite app_nil_r. reflexivity.
  - rewrite update_cons. simpl fst; simpl snd.
    assert (Hk : ~ In k (PyDict.keys d)).
    { apply NoDup_remove_2 in H. intros Hin. apply H.
      apply in_or_app; left; assumption. }
    rewrite (set_fresh _ _ _ Hk), IH.
    + rewrite <- app_assoc. reflexivity.
    + unfold PyDict.keys in *. rewrite map_app, <- app_assoc. exact H.
Qed.

Lemma update_NoDup {V : Type} (kvs : list (string * V)) (d : PyDict.dict V) :
  NoDup (PyDict.keys d) -> NoDup (PyDict.keys (PyDict.update d kvs)).
Proof.
  revert d; induction kvs as [|kv kvs IH]; intros d H; [assumption|].
  rewrite update_cons. apply IH, set_NoDup, H.
Qed.

Lemma keys_update {V : Type} (kvs : list (string * V)) (d : PyDict.dict V) k :
  In k (PyDict.keys (PyDict.update d kvs)) ->
  In k (PyDict.keys d) \/ In k (map fst kvs).
Proof.
  revert d; induction kvs as [|kv kvs IH]; intros d H; [auto|].
  rewrite update_cons in H. apply IH in H as [H|H].
  - apply keys_set in H as [->|H]; simpl; auto.
  - simpl; auto.
Qed.

(** Pairs under other keys leave the value of [k] alone. *)
Lemma get_update_other {V : Type} (kvs : list (string * V)) (d : PyDict.dict V) k :
  forallb (fun kv => negb (String.eqb (fst kv) k)) kvs = true ->
  PyDict.get k (PyDict.update d kvs) = PyDict.get k d.
Proof.
  revert d; induction kvs as [|kv kvs IH]; intros d H; [reflexivity|].
  simpl in H. apply andb_true_iff in H as [Hk H].
  rewrite update_cons, (IH _ H), get_set.
  apply negb_true_iff in Hk. rewrite String.eqb_sym, Hk. reflexivity.
Qed.

Lemma get_In {V : Type} (k : string) (v : V) (d : PyDict.dict V) :
  PyDict.get k d = Some v -> In (k, v) d.
Proof.
  induction d as [|[k0 v0] d IH]; simpl; [discriminate|].
  destruct (String.eqb k k0) eqn:E.
  - apply String.eqb_eq in E; subst. intros [= ->]; auto.
  - auto.
Qed.

(** ** create_predictions_iter: one batch, then the whole session *)

Section StreamerProperties.

Context {A : Type}.

(** The function unfolds into the loop of the source: one call of
    [sess.run], the handler, the [for] loop, the next turn. *)
Lemma create_predictions_iter_unfold (sess : session A) :
  create_predictions_iter sess
  = match sess_run sess with
    | (Raise e, _) => on_exception e
    | (Ok predictions_, sess') =>
        match batch_length predictions_ with
        | Raise e => on_exception e
        | Ok n =>
            match yield_records predictions_ (seq 0 n) with
            | (rs, Some e) => yield_then rs (on_exception e)
            | (rs, None) => yield_then rs (create_predictions_iter sess')
            end
        end
    end.
Proof. destruct sess as [|[b|e] sess]; reflexivity. Qed.

Lemma all_counts_In (p : nat -> bool) (b : batch A) key value :
  all_counts p b = true -> In (key, value) b ->
  exists elems, value = Arr elems /\ p (length elems) = true.
Proof.
  unfold all_counts; intros H Hin.
  rewrite forallb_forall in H. specialize (H _ Hin). simpl in H.
  destruct value as [a|elems]; simpl in H; [discriminate|].
  exists elems; auto.
Qed.

Lemma slice_items_ok (items : list (string * ndarray A)) i (acc : record A) :
  all_counts (Nat.ltb i) items = true ->
  slice_items items i acc
  = Ok (PyDict.update acc
          (map (fun kv => (fst kv, field_at i (snd kv))) items)).
Proof.
  revert acc; induction items as [|[key value] items IH]; intros acc H.
  - reflexivity.
  - simpl in H. apply andb_true_iff in H as [Hv H].
    destruct value as [a|elems]; simpl in Hv; [discriminate|].
    apply Nat.ltb_lt in Hv.
    rewrite map_cons, update_cons.
    cbn [slice_items nd_getitem fst snd field_at]. unfold getitem.
    destruct (nth_error elems i) as [x|] eqn:Ex.
    + cbn [bind]. rewrite (IH _ H), (nth_error_nth _ _ _ Ex). reflexivity.
    + apply nth_error_None in Ex. lia.
Qed.

Lemma slice_ok (b : batch A) i :
  distinct (PyDict.keys b) = true ->
  all_counts (Nat.ltb i) b = true ->
  slice b i = Ok (index_record b i).
Proof.
  intros Hd Hc. unfold slice, PyDict.items.
  rewrite (slice_items_ok _ _ _ Hc), update_fresh; [reflexivity|].
  simpl. rewrite map_map. simpl. apply distinct_NoDup, Hd.
Qed.

Lemma all_counts_weaken (p q : nat -> bool) (b : batch A) :
  (forall c, p c = true -> q c = true) ->
  all_counts p b = true -> all_counts q b = true.
Proof.
  intros Hpq. unfold all_counts. rewrite !forallb_forall.
  intros H kv Hin. specialize (H kv Hin).
  destruct (leading_count (snd kv)); auto.
Qed.

Lemma yield_records_ok (b : batch A) (indices : list nat) :
  (forall i, In i indices -> slice b i = Ok (index_record b i)) ->
  yield_records b indices = (map (index_record b) indices, None).
Proof.
  induction indices as [|i indices IH]; intros H; [reflexivity|].
  simpl. rewrite (H i) by (left; reflexivity).
  rewrite IH by (intros; apply H; right; assumption). reflexivity.
Qed.

(** A batch whose fields all reach the count of the first one is flattened
    into the records of indices [0 .. n-1], and the loop goes on. *)
Lemma create_predictions_iter_batch (b : batch A) n (sess : session A) :
  batch_length b = Ok n ->
  distinct (PyDict.keys b) = true ->
  all_counts (Nat.leb n) b = true ->
  create_predictions_iter (Returns b :: sess)
  = yield_then (records_of b n) (create_predictions_iter sess).
Proof.
  intros Hn Hd Hc. simpl. rewrite Hn.
  rewrite yield_records_ok; [reflexivity|].
  intros i Hi. apply in_seq in Hi. apply slice_ok; [assumption|].
  apply (all_counts_weaken (Nat.leb n)); [|assumption].
  intros c Hle. apply Nat.leb_le in Hle. apply Nat.ltb_lt. lia.
Qed.

Lemma has_batch_size_length (b : batch A) n :
  has_batch_size b n = true ->
  batch_length b = Ok n /\ distinct (PyDict.keys b) = true
  /\ all_counts (Nat.leb n) b = true.
Proof.
  unfold has_batch_size. intros H.
  apply andb_true_iff in H as [H Hc]. apply andb_true_iff in H as [Hne Hd].
  split; [|split; [assumption|]].
  - destruct b as [|[key value] b]; [discriminate|].
    simpl in Hc. apply andb_true_iff in Hc as [Hv _].
    destruct value as [a|elems]; simpl in Hv; [discriminate|].
    apply Nat.eqb_eq in Hv. subst n. reflexivity.
  - apply (all_counts_weaken (Nat.eqb n)); [|assumption].
    intros c Hc'. apply Nat.eqb_eq in Hc'. subst c. apply Nat.leb_refl.
Qed.

Lemma exhausted_stops (sess : session A) :
  exhausted sess = true -> create_predictions_iter sess = ([], Returned).
Proof.
  unfold exhausted. destruct sess as [|[b|e] sess]; simpl;
    [reflexivity|discriminate|].
  destruct e; try discriminate. reflexivity.
Qed.

Lemma yield_then_app (rs1 rs2 : list (record A)) k :
  yield_then rs1 (yield_then rs2 k) = yield_then (rs1 ++ rs2) k.
Proof. unfold yield_then; simpl. rewrite app_assoc. reflexivity. Qed.

(** Batches of known sizes, one after the other, then whatever follows. *)
Lemma create_predictions_iter_batches (bss : list (batch A * nat))
    (rest : session A) :
  forallb (fun bs => has_batch_size (fst bs) (snd bs)) bss = true ->
  create_predictions_iter (map (fun bs => Returns (fst bs)) bss ++ rest)
  = yield_then (flat_map (fun bs => records_of (fst bs) (snd bs)) bss)
      (create_predictions_iter rest).
Proof.
  induction bss as [|[b n] bss IH]; intros H.
  - simpl. unfold yield_then. simpl. destruct (create_predictions_iter rest).
    reflexivity.
  - simpl in H. apply andb_true_iff in H as [Hb H].
    apply has_batch_size_length in Hb as (Hn & Hd & Hc).
    change (map (fun bs => Returns (fst bs)) ((b, n) :: bss) ++ rest)
      with (Returns b :: (map (fun bs => Returns (fst bs)) bss ++ rest)).
    rewrite (create_predictions_iter_batch _ _ _ Hn Hd Hc), (IH H).
    rewrite yield_then_app. reflexivity.
Qed.

Lemma length_records_of (b : batch A) n : length (records_of b n) = n.
Proof. unfold records_of. rewrite length_map, length_seq. reflexivity. Qed.

Lemma length_flat_map_records (bss : list (batch A * nat)) :
  length (flat_map (fun bs => records_of (fst bs) (snd bs)) bss)
  = list_sum (map snd bss).
Proof.
  induction bss as [|[b n] bss IH]; simpl; [reflexivity|].
  rewrite length_app, length_records_of, IH. reflexivity.
Qed.

(** The record of index [i] of the batch of rank [j] comes after all the
    records of the batches before it, at offset [i] among its own. *)
Lemma nth_error_flat_map_records (bss : list (batch A * nat)) j b n i :
  nth_error bss j = Some (b, n) -> i < n ->
  nth_error (flat_map (fun bs => records_of (fst bs) (snd bs)) bss)
    (list_sum (map snd (firstn j bss)) + i)
  = Some (index_record b i).
Proof.
  revert j; induction bss as [|[b0 n0] bss IH]; intros [|j] Hj Hi;
    try discriminate.
  - injection Hj as -> ->. cbn [firstn map list_sum flat_map fst snd].
    rewrite Nat.add_0_l.
    rewrite nth_error_app1 by (rewrite length_records_of; assumption).
    unfold records_of. apply map_nth_error.
    rewrite (nth_error_nth' _ 0) by (rewrite length_seq; assumption).
    rewrite seq_nth by assumption. reflexivity.
  - cbn [firstn map flat_map fst snd].
    change (list_sum (n0 :: map snd (firstn j bss)))
      with (n0 + list_sum (map snd (firstn j bss))).
    rewrite nth_error_app2 by (rewrite length_records_of; lia).
    rewrite length_records_of.
    replace (n0 + list_sum (map snd (firstn j bss)) + i - n0)
      with (list_sum (map snd (firstn j bss)) + i) by lia.
    apply IH; assumption.
Qed.

(** A record of index [i] holds, under every key, the entry of index [i] of
    the field of that key. *)
Lemma index_record_get (b : batch A) i key :
  PyDict.get key (index_record b i)
  = option_map (field_at i) (PyDict.get key b).
Proof.
  induction b as [|[k v] b IH]; simpl; [reflexivity|].
  destruct (String.eqb key k); [reflexivity|apply IH].
Qed.

Lemma yield_then_nil (k : list (record A) * ending) : yield_then [] k = k.
Proof. destruct k; reflexivity. Qed.

(** Indexing is the only thing that fails in a slice. *)
Lemma slice_items_raise (items : list (string * ndarray A)) i acc e :
  slice_items items i acc = Raise e -> e = IndexError.
Proof.
  revert acc; induction items as [|[key value] items IH]; intros acc;
    simpl; [discriminate|].
  destruct value as [a|elems]; simpl; [congruence|].
  unfold getitem. destruct (nth_error elems i); simpl; [apply IH|congruence].
Qed.

(** A field with no entry of index [i] makes the slice at [i] fail. *)
Lemma slice_items_short (items : list (string * ndarray A)) i acc :
  some_count (fun c => c <=? i) items = true ->
  slice_items items i acc = Raise IndexError.
Proof.
  revert acc; induction items as [|[key value] items IH]; intros acc H;
    simpl in H; [discriminate|].
  simpl. destruct value as [a|elems]; simpl; [reflexivity|].
  unfold getitem. destruct (nth_error elems i) as [x|] eqn:Ex; simpl;
    [|reflexivity].
  apply orb_true_iff in H as [H|H]; [|apply IH, H].
  simpl in H. apply Nat.leb_le in H.
  assert (nth_error elems i = None) by (apply nth_error_None; assumption).
  congruence.
Qed.

Lemma yield_records_short (b : batch A) (indices : list nat) i :
  In i indices -> slice b i = Raise IndexError ->
  exists rs, yield_records b indices = (rs, Some IndexError)
             /\ length rs < length indices.
Proof.
  intros Hin Hi. induction indices as [|i0 indices IH]; [destruct Hin|].
  simpl. destruct (slice b i0) as [r|e] eqn:E0.
  - destruct Hin as [->|Hin]; [congruence|].
    destruct (IH Hin) as (rs & Hrs & Hlen). rewrite Hrs.
    exists (r :: rs); split; [reflexivity|simpl; lia].
  - apply slice_items_raise in E0; subst e.
    exists []; split; [reflexivity|simpl; lia].
Qed.

Lemma some_count_In (p : nat -> bool) (b : batch A) :
  some_count p b = true ->
  exists key elems, In (key, Arr elems) b /\ p (length elems) = true.
Proof.
  unfold some_count. intros H. apply existsb_exists in H as ([key value] & Hin & H).
  destruct value as [a|elems]; simpl in H; [discriminate|].
  exists key, elems; auto.
Qed.

Lemma some_count_intro (p : nat -> bool) (b : batch A) key elems :
  In (key, Arr elems) b -> p (length elems) = true -> some_count p b = true.
Proof.
  intros Hin Hp. unfold some_count. apply existsb_exists.
  exists (key, Arr elems); auto.
Qed.

(** ** create_predictions_iter: the claims *)

(** C2: when the session yields the Batches B1 .. Bn, of batch sizes
    s1 .. sn, and then signals the end of the input, the records emitted
    are those of B1 for the indices 0 .. s1-1 in this order, then those of
    B2, and so on, s1 + ... + sn records in all: the record of index [i]
    of the batch of rank [j] stands at position [s1 + ... + sj + i] (ranks
    from 0); it holds under every key the entry of index [i] of the field
    of that key. *)
Theorem create_predictions_iter_order (bss : list (batch A * nat))
    (rest : session A) :
  forallb (fun bs => has_batch_size (fst bs) (snd bs)) bss = true ->
  exhausted rest = true ->
  create_predictions_iter (map (fun bs => Returns (fst bs)) bss ++ rest)
  = (flat_map (fun bs => map (index_record (fst bs)) (seq 0 (snd bs))) bss,
     Returned)
  /\ length (fst (create_predictions_iter
                    (map (fun bs => Returns (fst bs)) bss ++ rest)))
     = list_sum (map snd bss)
  /\ (forall j b n i,
         nth_error bss j = Some (b, n) -> i < n ->
         nth_error (fst (create_predictions_iter
                           (map (fun bs => Returns (fst bs)) bss ++ rest)))
           (list_sum (map snd (firstn j bss)) + i)
         = Some (index_record b i))
  /\ (forall b n i key elems,
         In (b, n) bss -> i < n ->
         PyDict.get key b = Some (Arr elems) ->
         PyDict.get key (index_record b i) = nth_error elems i).
Proof.
  intros Hbss Hrest.
  assert (E : create_predictions_iter
                (map (fun bs => Returns (fst bs)) bss ++ rest)
              = (flat_map (fun bs => records_of (fst bs) (snd bs)) bss,
                 Returned)).
  { rewrite (create_predictions_iter_batches _ _ Hbss),
      (exhausted_stops _ Hrest).
    unfold yield_then; simpl. rewrite app_nil_r. reflexivity. }
  split; [exact E|]. split; [|split].
  - rewrite E. simpl. apply length_flat_map_records.
  - intros j b n i Hj Hi. rewrite E. cbn [fst].
    apply (nth_error_flat_map_records _ _ _ n); assumption.
  - intros b n i key elems Hin Hi Hget.
    rewrite forallb_forall in Hbss. specialize (Hbss _ Hin). simpl in Hbss.
    unfold has_batch_size in Hbss. apply andb_true_iff in Hbss as [_ Hc].
    destruct (all_counts_In _ _ _ _ Hc (get_In _ _ _ Hget))
      as (elems' & [= <-] & Hlen).
    apply Nat.eqb_eq in Hlen.
    rewrite index_record_get, Hget. simpl.
    symmetry. apply nth_error_nth'. lia.
Qed.

(** C4: the end of the input ends the stream of records, with no
    exception; a batch of batch size 0 adds no record and the loop goes on
    to the next call; batches of sizes 2, 0 and 3 followed by the end of
    the input give five records, and then the stream ends. *)
Theorem create_predictions_iter_exhaustion :
  (forall sess : session A,
      exhausted sess = true ->
      create_predictions_iter sess = ([], Returned)) /\
  (forall (b : batch A) (sess : session A),
      has_batch_size b 0 = true ->
      create_predictions_iter (Returns b :: sess)
      = create_predictions_iter sess) /\
  (forall (b1 b2 b3 : batch A) (rest : session A),
      has_batch_size b1 2 = true ->
      has_batch_size b2 0 = true ->
      has_batch_size b3 3 = true ->
      exhausted rest = true ->
      exists rs,
        create_predictions_iter (Returns b1 :: Returns b2 :: Returns b3 :: rest)
        = (rs, Returned) /\ length rs = 5).
Proof.
  split; [exact exhausted_stops|]. split.
  - intros b sess Hb.
    apply has_batch_size_length in Hb as (Hn & Hd & Hc).
    rewrite (create_predictions_iter_batch _ _ _ Hn Hd Hc).
    apply yield_then_nil.
  - intros b1 b2 b3 rest H1 H2 H3 Hrest.
    assert (Hbss : forallb (fun bs => has_batch_size (fst bs) (snd bs))
                     [(b1, 2); (b2, 0); (b3, 3)] = true).
    { cbn [forallb fst snd]. rewrite H1, H2, H3. reflexivity. }
    pose proof (create_predictions_iter_batches _ rest Hbss) as E.
    rewrite (exhausted_stops _ Hrest) in E.
    eexists; split; [exact E|].
    cbn [fst yield_then]. rewrite app_nil_r, length_flat_map_records.
    reflexivity.
Qed.

(** C6, amended: [create_predictions_iter] compares no counts.  The batch
    length [n] is the leading count of the first field.  When every field
    has a leading count of at least [n], equal or not, the records of
    indices [0 .. n-1] are yielded and the loop goes on; when some field
    has a leading count below [n], fewer than [n] records are yielded and
    the indexing of that field then raises [IndexError]. *)
Theorem create_predictions_iter_counts (b : batch A) n (sess : session A) :
  batch_length b = Ok n ->
  distinct (PyDict.keys b) = true ->
  (all_counts (Nat.leb n) b = true ->
   create_predictions_iter (Returns b :: sess)
   = yield_then (map (index_record b) (seq 0 n))
       (create_predictions_iter sess)) /\
  (some_count (fun c => c <? n) b = true ->
   exists rs,
     create_predictions_iter (Returns b :: sess) = (rs, Raised IndexError)
     /\ length rs < n).
Proof.
  intros Hn Hd. split.
  - intros Hc. apply (create_predictions_iter_batch _ _ _ Hn Hd Hc).
  - intros Hs. apply some_count_In in Hs as (key & elems & Hin & Hlt).
    apply Nat.ltb_lt in Hlt.
    destruct (yield_records_short b (seq 0 n) (length elems))
      as (rs & Hrs & Hlen).
    + apply in_seq. lia.
    + apply slice_items_short.
      apply (some_count_intro _ _ key elems Hin). apply Nat.leb_refl.
    + simpl. rewrite Hn, Hrs. rewrite length_seq in Hlen.
      exists rs. split; [|assumption].
      unfold yield_then; simpl. rewrite app_nil_r. reflexivity.
Qed.

End StreamerProperties.

Lemma create_predictions_iter_order_witness :
  create_predictions_iter
    (map (fun bs => Returns (fst bs)) three_batches
     ++ [Throws OutOfRangeError])
  = (flat_map (fun bs => map (index_record (fst bs)) (seq 0 (snd bs)))
       three_batches,
     Returned)
  /\ length (fst (create_predictions_iter
                    (map (fun bs => Returns (fst bs)) three_batches
                     ++ [Throws OutOfRangeError])))
     = list_sum (map snd three_batches)
  /\ (forall j b n i,
         nth_error three_batches j = Some (b, n) -> i < n ->
         nth_error (fst (create_predictions_iter
                           (map (fun bs => Returns (fst bs)) three_batches
                            ++ [Throws OutOfRangeError])))
           (list_sum (map snd (firstn j three_batches)) + i)
         = Some (index_record b i))
  /\ (forall b n i key elems,
         In (b, n) three_batches -> i < n ->
         PyDict.get key b = Some (Arr elems) ->
         PyDict.get key (index_record b i) = nth_error elems i).
Proof.
  apply (create_predictions_iter_order three_batches
           [Throws OutOfRangeError]);
    reflexivity.
Defined.

Lemma create_predictions_iter_exhaustion_witness :
  exists rs,
    create_predictions_iter
      [Returns (tokens_and_scores [1; 2] [10; 20]);
       Returns (tokens_and_scores [] []);
       Returns (tokens_and_scores [3; 4; 5] [30; 40; 50])]
    = (rs, Returned) /\ length rs = 5.
Proof.
  apply (proj2 (proj2 create_predictions_iter_exhaustion)
           (tokens_and_scores [1; 2] [10; 20])
           (tokens_and_scores [] [])
           (tokens_and_scores [3; 4; 5] [30; 40; 50]) []);
    reflexivity.
Defined.

(** C6, as the specification states it, fails: a batch whose second field
    has three entries and whose first field has two is flattened into two
    records, the third entry is dropped, and nothing is raised. *)
Lemma create_predictions_iter_longer_field_silent :
  map (fun kv => leading_count (snd kv))
    (tokens_and_scores [1; 2] [10; 20; 30]) = [Some 2; Some 3] /\
  create_predictions_iter [Returns (tokens_and_scores [1; 2] [10; 20; 30])]
  = ([[("tokens", Scalar 1); ("scores", Scalar 10)];
      [("tokens", Scalar 2); ("scores", Scalar 20)]],
     Returned).
Proof. split; reflexivity. Qed.

Lemma create_predictions_iter_counts_witness :
  create_predictions_iter [Returns (tokens_and_scores [1; 2] [10; 20; 30])]
  = yield_then
      (map (index_record (tokens_and_scores [1; 2] [10; 20; 30])) (seq 0 2))
      (create_predictions_iter [])
  /\ exists rs,
       create_predictions_iter [Returns (tokens_and_scores [1; 2; 3] [10; 20])]
       = (rs, Raised IndexError) /\ length rs < 3.
Proof.
  split.
  - apply (proj1 (create_predictions_iter_counts
                    (tokens_and_scores [1; 2] [10; 20; 30]) 2 []
                    eq_refl eq_refl)).
    reflexivity.
  - apply (proj2 (create_predictions_iter_counts
                    (tokens_and_scores [1; 2; 3] [10; 20]) 3 []
                    eq_refl eq_refl)).
    reflexivity.
Defined.

(** ** get_unk_mapping: the parse and the two dictionaries *)

Lemma dict_of_seq_ok (lines : list string) (acc : PyDict.dict string) :
  forallb well_formed_line lines = true ->
  dict_of_seq (map (fun l => firstn 2 (split TAB l)) lines) acc
  = Ok (PyDict.update acc
          (map (fun l => (line_key l, line_target l)) lines)).
Proof.
  revert acc; induction lines as [|l lines IH]; intros acc H; [reflexivity|].
  simpl in H. apply andb_true_iff in H as [Hl H].
  unfold well_formed_line in Hl. apply Nat.leb_le in Hl.
  rewrite !map_cons, update_cons. unfold line_key, line_target.
  destruct (split TAB l) as [|k [|v fields]]; simpl in Hl; try lia.
  simpl. apply IH, H.
Qed.

Lemma dict_of_seq_malformed (lines : list string) (acc : PyDict.dict string)
    (line : string) :
  In line lines -> length (split TAB line) < 2 ->
  dict_of_seq (map (fun l => firstn 2 (split TAB l)) lines) acc
  = Raise ValueError.
Proof.
  intros Hin Hlen. revert acc.
  induction lines as [|l lines IH]; intros acc; [destruct Hin|].
  rewrite map_cons.
  destruct (split TAB l) as [|k [|v fields]] eqn:El; try reflexivity.
  destruct Hin as [->|Hin].
  - rewrite El in Hlen. simpl in Hlen. lia.
  - simpl. apply IH, Hin.
Qed.

Lemma find_last_split {X : Type} (p : X -> bool) (xs : list X) (x : X) :
  find_last p xs = Some x ->
  exists before after,
    xs = before ++ x :: after /\ p x = true /\
    forallb (fun y => negb (p y)) after = true.
Proof.
  induction xs as [|x0 xs IH]; simpl; [discriminate|].
  destruct (find_last p xs) as [y|] eqn:E.
  - intros [= ->]. destruct (IH eq_refl) as (before & after & -> & Hp & Ha).
    exists (x0 :: before), after; repeat split; assumption.
  - destruct (p x0) eqn:E0; [|discriminate]. intros [= <-].
    exists [], xs. split; [reflexivity|]. split; [assumption|].
    clear IH. induction xs as [|x1 xs IH]; [reflexivity|].
    simpl in E. destruct (find_last p xs); [discriminate|].
    destruct (p x1) eqn:E1; [discriminate|]. cbn [forallb]. rewrite E1.
    apply IH. reflexivity.
Qed.

(** When a single key of [items] strips to [strip r], the stripped dict
    gives to [strip r] the stripped value of [r]. *)
Lemma strip_items_single (items acc : PyDict.dict string) (r v : string) :
  NoDup (PyDict.keys items) ->
  In (r, v) items ->
  (forall k' v', In (k', v') items -> strip k' = strip r -> k' = r) ->
  PyDict.get (strip r)
    (PyDict.update acc
       (map (fun kv => (strip (fst kv), strip (snd kv))) items))
  = Some (strip v).
Proof.
  revert acc; induction items as [|[k0 v0] items IH]; intros acc Hnd Hin Hone;
    [destruct Hin|].
  rewrite map_cons, update_cons. cbn [fst snd].
  inversion Hnd as [|? ? Hk0 Hnd']; subst.
  destruct Hin as [[= -> ->]|Hin].
  - rewrite get_update_other.
    + rewrite get_set, String.eqb_refl. reflexivity.
    + apply forallb_forall. intros kv Hkv.
      apply in_map_iff in Hkv as ([k' v'] & <- & Hkv). cbn [fst snd].
      apply negb_true_iff. apply String.eqb_neq. intros Heq.
      assert (k' = r) by (apply (Hone k' v'); [right; assumption|assumption]).
      subst k'. apply Hk0. apply in_map_iff. exists (r, v'); auto.
  - apply IH; [assumption|assumption|].
    intros k' v' Hk' Hs. apply (Hone k' v'); [right; assumption|assumption].
Qed.

(** ** get_unk_mapping: the claims *)

(** C7: a file with a line of fewer than two tab-separated fields makes
    [get_unk_mapping] raise: no table is returned, wherever the line
    stands and whatever the other lines are.  The exception is
    [ValueError], unless a line of the file does not decode, which raises
    first. *)
Theorem get_unk_mapping_malformed_line fs filename content line :
  fs filename = Some content ->
  In line (readlines content) ->
  length (split TAB line) < 2 ->
  (exists e, get_unk_mapping fs filename = Raise e) /\
  (forallb utf8_valid (readlines content) = true ->
   get_unk_mapping fs filename = Raise ValueError).
Proof.
  intros Hfs Hin Hlen. unfold get_unk_mapping, parse_unk_mapping.
  rewrite Hfs, (dict_of_seq_malformed _ _ _ Hin Hlen).
  destruct (forallb utf8_valid (readlines content)); cbn [bind]; split.
  - exists ValueError. reflexivity.
  - reflexivity.
  - eexists. reflexivity.
  - intros H. discriminate H.
Qed.

Lemma get_unk_mapping_malformed_line_witness :
  get_unk_mapping
    (fun _ => Some (mapping_line "paris" "Paris" ++ "france"
                    ++ String NL (mapping_line "rome" "Roma"))%string)
    "unk_mapping.txt"
  = Raise ValueError.
Proof.
  apply (proj2 (get_unk_mapping_malformed_line _ "unk_mapping.txt"
                  (mapping_line "paris" "Paris" ++ "france"
                   ++ String NL (mapping_line "rome" "Roma"))%string
                  (String.append "france" (String NL EmptyString))
                  eq_refl
                  (or_intror (or_introl eq_refl))
                  (le_n 2))).
  reflexivity.
Defined.

(** C8, as the specification states it, fails: of three lines whose keys
    trim to [a], the last one, with target [3], does not give the value of
    [a]; the second one does, because its untrimmed key entered the first
    dictionary after the key of the first and third lines. *)
Lemma get_unk_mapping_last_line_loses :
  let content := (mapping_line "a" "1" ++ mapping_line " a" "2"
                  ++ mapping_line "a" "3")%string in
  readlines content
  = [mapping_line "a" "1"; mapping_line " a" "2"; mapping_line "a" "3"] /\
  find_last (fun l => String.eqb (strip (line_key l)) "a") (readlines content)
  = Some (mapping_line "a" "3") /\
  strip (line_target (mapping_line "a" "3")) = "3" /\
  get_unk_mapping (fun _ => Some content) "unk_mapping.txt"
  = Ok [("a", "2")].
Proof. repeat split. Qed.

(** C8, amended: on a file that decodes and whose lines all have two
    fields, when the lines whose key trims to [k] all have the same
    untrimmed first field, the table gives to [k] the trimmed target of
    the last of these lines. *)
Theorem get_unk_mapping_last_line_wins fs filename content k last :
  fs filename = Some content ->
  forallb utf8_valid (readlines content) = true ->
  forallb well_formed_line (readlines content) = true ->
  find_last (fun l => String.eqb (strip (line_key l)) k) (readlines content)
  = Some last ->
  forallb (fun l => implb (String.eqb (strip (line_key l)) k)
                      (String.eqb (line_key l) (line_key last)))
    (readlines content) = true ->
  exists d,
    get_unk_mapping fs filename = Ok d /\
    PyDict.get k d = Some (strip (line_target last)).
Proof.
  intros Hfs Hdec Hwf Hlast Hsame.
  unfold get_unk_mapping, parse_unk_mapping. rewrite Hfs, Hdec.
  rewrite (dict_of_seq_ok _ _ Hwf). cbn [bind].
  eexists; split; [reflexivity|].
  set (lines := readlines content) in *.
  set (pairs := map (fun l => (line_key l, line_target l)) lines).
  destruct (find_last_split _ _ _ Hlast) as (before & after & El & Hk & Ha).
  apply String.eqb_eq in Hk. subst k.
  rewrite forallb_forall in Hsame.
  assert (Hget : PyDict.get (line_key last) (PyDict.update [] pairs)
                 = Some (line_target last)).
  { unfold pairs. rewrite El, map_app, map_cons, update_app, update_cons.
    cbn [fst snd]. rewrite get_update_other.
    - rewrite get_set, String.eqb_refl. reflexivity.
    - apply forallb_forall. intros kv Hkv.
      apply in_map_iff in Hkv as (l & <- & Hl). cbn [fst].
      rewrite forallb_forall in Ha. specialize (Ha l Hl).
      apply negb_true_iff in Ha. apply negb_true_iff.
      apply String.eqb_neq in Ha. apply String.eqb_neq.
      intros Heq. apply Ha. rewrite Heq. reflexivity. }
  unfold strip_items, PyDict.items.
  apply strip_items_single.
  - apply update_NoDup. constructor.
  - apply get_In, Hget.
  - intros k' v' Hin Hs.
    assert (Hk' : In k' (PyDict.keys (PyDict.update [] pairs))).
    { apply in_map_iff. exists (k', v'); auto. }
    apply keys_update in Hk' as [[]|Hk'].
    unfold pairs in Hk'. rewrite map_map in Hk'. cbn [fst] in Hk'.
    apply in_map_iff in Hk' as (l & <- & Hl).
    specialize (Hsame l Hl). cbn beta in Hsame.
    apply String.eqb_eq in Hs. rewrite Hs in Hsame. cbn [implb] in Hsame.
    apply String.eqb_eq in Hsame. exact Hsame.
Qed.

Lemma get_unk_mapping_last_line_wins_witness :
  exists d,
    get_unk_mapping
      (fun _ => Some (mapping_line "paris" "Paris" ++ mapping_line " rome" "Roma"
                      ++ mapping_line "paris" "La Ville")%string)
      "unk_mapping.txt"
    = Ok d /\
    PyDict.get "paris" d
    = Some (strip (line_target (mapping_line "paris" "La Ville"))).
Proof.
  apply (get_unk_mapping_last_line_wins _ _
           (mapping_line "paris" "Paris" ++ mapping_line " rome" "Roma"
            ++ mapping_line "paris" "La Ville")%string
           "paris" (mapping_line "paris" "La Ville"));
    reflexivity.
Defined.

(** * Further properties of unk_replace *)

Lemma first_max_bound row j : is_first_max row j -> j < length row.
Proof.
  intros (x & Hx & _). apply nth_error_Some. rewrite Hx. discriminate.
Qed.

Lemma np_argmax_bound row j : np_argmax row = Ok j -> j < length row.
Proof.
  intros Hj. destruct (np_argmax_first_max row) as (j' & Hj' & Hmax).
  - intros ->. discriminate.
  - assert (j' = j) by congruence. subst. apply first_max_bound, Hmax.
Qed.

(** The lookup in the mapping is guarded by the membership test. *)
Lemma mapping_lookup_total (m : option (PyDict.dict string)) chosen :
  exists o,
    match m with
    | Some d =>
        if PyDict.contains chosen d then PyDict.getitem chosen d
        else Ok chosen
    | None => Ok chosen
    end = Ok o.
Proof.
  destruct m as [d|]; [|eauto].
  unfold PyDict.contains, PyDict.getitem.
  destruct (PyDict.get chosen d); eauto.
Qed.

(** Why a turn of the loop on the sentinel raises. *)
Lemma unk_replace_token_raise src m row e :
  unk_replace_token src m UNK row = Raise e ->
  (row = [] /\ e = ValueError) \/
  (exists j, np_argmax row = Ok j /\ length src <= j /\ e = IndexError).
Proof.
  unfold unk_replace_token. simpl String.eqb. cbv iota.
  destruct row as [|x xs]; [simpl; intros [= <-]; auto|].
  intros H. right. remember (x :: xs) as row.
  destruct (np_argmax row) as [j|e0] eqn:Ej.
  - cbn [bind] in H. unfold getitem in H.
    destruct (nth_error src j) as [c|] eqn:Ec.
    + cbn [bind] in H.
      destruct (mapping_lookup_total m c) as (o & Ho). congruence.
    + cbn [bind] in H. injection H as <-.
      exists j. repeat split. apply nth_error_None, Ec.
  - subst row. discriminate.
Qed.

Lemma unk_replace_token_total src m tok row :
  row <> [] -> length row <= length src ->
  exists o, unk_replace_token src m tok row = Ok o.
Proof.
  intros Hne Hlen. unfold unk_replace_token.
  destruct (String.eqb tok UNK); [|eauto].
  destruct (np_argmax_first_max row Hne) as (j & Hj & Hmax).
  rewrite Hj. cbn [bind]. unfold getitem.
  destruct (nth_error src j) as [c|] eqn:Ec.
  - cbn [bind]. apply mapping_lookup_total.
  - apply nth_error_None in Ec. apply first_max_bound in Hmax. lia.
Qed.

Lemma unk_replace_loop_app src m pairs1 pairs2 :
  unk_replace_loop src m (pairs1 ++ pairs2)
  = (r1 <- unk_replace_loop src m pairs1 ;;
     r2 <- unk_replace_loop src m pairs2 ;;
     Ok (r1 ++ r2)).
Proof.
  induction pairs1 as [|[tok row] pairs1 IH]; simpl.
  - destruct (unk_replace_loop src m pairs2); reflexivity.
  - destruct (unk_replace_token src m tok row); simpl; [|reflexivity].
    rewrite IH.
    destruct (unk_replace_loop src m pairs1); simpl; [|reflexivity].
    destruct (unk_replace_loop src m pairs2); reflexivity.
Qed.

Lemma combine_app_same {X Y : Type} (l1 l2 : list X) (r1 r2 : list Y) :
  length l1 = length r1 ->
  combine (l1 ++ l2) (r1 ++ r2) = combine l1 r1 ++ combine l2 r2.
Proof.
  revert r1; induction l1 as [|x l1 IH]; intros [|y r1] H; simpl in *;
    try discriminate; [reflexivity|].
  f_equal. apply IH. lia.
Qed.

Lemma combine_app_r_longer {X Y : Type} (l : list X) (r extra : list Y) :
  length l <= length r -> combine l (r ++ extra) = combine l r.
Proof.
  revert r; induction l as [|x l IH]; intros [|y r] H; simpl in *;
    try lia; try reflexivity.
  f_equal. apply IH. lia.
Qed.

(** The pair read at a position of the output. *)
Lemma unk_replace_loop_nth_out src m pairs out t o :
  unk_replace_loop src m pairs = Ok out ->
  nth_error out t = Some o ->
  exists tok row,
    nth_error pairs t = Some (tok, row) /\
    unk_replace_token src m tok row = Ok o.
Proof.
  intros Hout Ho.
  destruct (nth_error pairs t) as [[tok row]|] eqn:Ep.
  - destruct (unk_replace_loop_nth _ _ _ _ _ _ _ Hout Ep) as (o' & Ho' & Ht).
    exists tok, row. split; [reflexivity|congruence].
  - apply nth_error_None in Ep.
    apply unk_replace_loop_length in Hout.
    assert (t < length out) by (apply nth_error_Some; congruence). lia.
Qed.

(** X1: on the documented shape (every row of scores non-empty and no
    longer than [source_tokens]) [unk_replace] raises nothing: it returns
    an array with one token per pair of [zip]. *)
Theorem unk_replace_total_on_shape src pred att m :
  forallb (fun row => (0 <? length row) && (length row <=? length src)) att
  = true ->
  exists out,
    unk_replace src pred att m = Ok out /\
    length out = Nat.min (length pred) (length att).
Proof.
  unfold unk_replace. revert att.
  induction pred as [|tok pred IH]; intros [|row att] H; simpl;
    try (eexists; split; reflexivity).
  simpl in H. apply andb_true_iff in H as [Hrow H].
  apply andb_true_iff in Hrow as [Hpos Hle].
  apply Nat.ltb_lt in Hpos. apply Nat.leb_le in Hle.
  destruct (unk_replace_token_total src m tok row) as (o & Ho);
    [destruct row; simpl in Hpos; [lia|discriminate] | assumption |].
  destruct (IH att H) as (os & Hos & Hlen).
  rewrite Ho, Hos. simpl. exists (o :: os). split; [reflexivity|].
  simpl. rewrite Hlen. reflexivity.
Qed.

Lemma unk_replace_total_on_shape_witness :
  exists out,
    unk_replace ["paris"; "france"] ["UNK"; "is"; "UNK"]
      [[1#10; 9#10]%Q; [1#2; 1#2]%Q; [3#4; 1#4]%Q] None = Ok out /\
    length out
    = Nat.min (length ["UNK"; "is"; "UNK"])
        (length [[1#10; 9#10]%Q; [1#2; 1#2]%Q; [3#4; 1#4]%Q]).
Proof.
  apply (unk_replace_total_on_shape ["paris"; "france"] ["UNK"; "is"; "UNK"]
           [[1#10; 9#10]%Q; [1#2; 1#2]%Q; [3#4; 1#4]%Q] None).
  reflexivity.
Defined.

(** X2: the only exceptions of [unk_replace] come from a position that
    holds the sentinel: [ValueError] when its row of scores is empty,
    [IndexError] when the selected position lies beyond [source_tokens].
    The lookup in the mapping never raises [KeyError]. *)
Theorem unk_replace_exceptions src pred att m e :
  unk_replace src pred att m = Raise e ->
  exists t row,
    nth_error pred t = Some UNK /\ nth_error att t = Some row /\
    ((row = [] /\ e = ValueError) \/
     (exists j, np_argmax row = Ok j /\ length src <= j /\ e = IndexError)).
Proof.
  intros H.
  apply unk_replace_loop_raise in H as (t & tok & row & Ht & Hr).
  apply nth_error_combine_inv in Ht as [Hp Ha].
  destruct (String.eqb tok UNK) eqn:E.
  - apply String.eqb_eq in E; subst tok. exists t, row.
    split; [assumption|]. split; [assumption|].
    apply (unk_replace_token_raise _ _ _ _ Hr).
  - rewrite (unk_replace_token_other _ _ _ _ E) in Hr. discriminate.
Qed.

Lemma unk_replace_exceptions_witness :
  exists t row,
    nth_error ["is"; "UNK"] t = Some UNK /\
    nth_error [[1#1]%Q; [1#10; 2#10; 9#10]%Q] t = Some row /\
    ((row = [] /\ IndexError = ValueError) \/
     (exists j, np_argmax row = Ok j /\ length ["paris"; "france"] <= j
                /\ IndexError = IndexError)).
Proof.
  apply (unk_replace_exceptions ["paris"; "france"] ["is"; "UNK"]
           [[1#1]%Q; [1#10; 2#10; 9#10]%Q] None IndexError).
  reflexivity.
Defined.

(** X3: rows of scores beyond the last predicted token are never read:
    appending rows to an [attention_scores] that already has a row per
    token changes nothing. *)
Theorem unk_replace_extra_rows src pred att extra m :
  length pred <= length att ->
  unk_replace src pred (att ++ extra) m = unk_replace src pred att m.
Proof.
  intros H. unfold unk_replace. rewrite combine_app_r_longer by assumption.
  reflexivity.
Qed.

Lemma unk_replace_extra_rows_witness :
  unk_replace ["paris"] ["UNK"] ([[1#1]%Q] ++ [[]; [2#1; 3#1]%Q]) None
  = unk_replace ["paris"] ["UNK"] [[1#1]%Q] None.
Proof.
  apply (unk_replace_extra_rows ["paris"] ["UNK"] [[1#1]%Q]
           [[]; [2#1; 3#1]%Q] None).
  simpl; lia.
Defined.

(** X4: positions are resolved independently, in order: on a predicted
    sequence cut in two, with the rows cut at the same place, the result is
    the result on the first part followed by the result on the second, and
    the first exception of the two, if any. *)
Theorem unk_replace_app src pred1 pred2 att1 att2 m :
  length pred1 = length att1 ->
  unk_replace src (pred1 ++ pred2) (att1 ++ att2) m
  = (out1 <- unk_replace src pred1 att1 m ;;
     out2 <- unk_replace src pred2 att2 m ;;
     Ok (out1 ++ out2)).
Proof.
  intros H. unfold unk_replace.
  rewrite combine_app_same by assumption. apply unk_replace_loop_app.
Qed.

Lemma unk_replace_app_witness :
  unk_replace ["paris"; "france"] (["UNK"; "is"] ++ ["UNK"])
    ([[1#10; 9#10]%Q; []] ++ [[1#1; 0#1]%Q]) None
  = (out1 <- unk_replace ["paris"; "france"] ["UNK"; "is"]
               [[1#10; 9#10]%Q; []] None ;;
     out2 <- unk_replace ["paris"; "france"] ["UNK"] [[1#1; 0#1]%Q] None ;;
     Ok (out1 ++ out2)).
Proof.
  apply (unk_replace_app ["paris"; "france"] ["UNK"; "is"] ["UNK"]
           [[1#10; 9#10]%Q; []] [[1#1; 0#1]%Q] None).
  reflexivity.
Defined.

Lemma unk_replace_loop_ext src m1 m2 pairs :
  (forall tok row, In (tok, row) pairs ->
                   unk_replace_token src m1 tok row
                   = unk_replace_token src m2 tok row) ->
  unk_replace_loop src m1 pairs = unk_replace_loop src m2 pairs.
Proof.
  induction pairs as [|[tok row] pairs IH]; intros H; [reflexivity|].
  simpl. rewrite (H tok row) by (left; reflexivity).
  rewrite IH by (intros; apply H; right; assumption). reflexivity.
Qed.

(** X5: a mapping that has none of the source tokens as a key has no
    effect: the call behaves as the call without a mapping. *)
Theorem unk_replace_mapping_without_source_keys src pred att d :
  forallb (fun s => negb (PyDict.contains s d)) src = true ->
  unk_replace src pred att (Some d) = unk_replace src pred att None.
Proof.
  intros H. unfold unk_replace. apply unk_replace_loop_ext.
  intros tok row _. unfold unk_replace_token.
  destruct (String.eqb tok UNK); [|reflexivity].
  destruct (np_argmax row) as [j|e]; [|reflexivity]. cbn [bind].
  unfold getitem. destruct (nth_error src j) as [c|] eqn:Ec; [|reflexivity].
  cbn [bind]. rewrite forallb_forall in H.
  specialize (H c (nth_error_In _ _ Ec)). apply negb_true_iff in H.
  rewrite H. reflexivity.
Qed.

Lemma unk_replace_mapping_without_source_keys_witness :
  unk_replace ["paris"; "france"] ["UNK"; "is"] [[1#10; 9#10]%Q; []]
    (Some [("rome", "Roma"); ("France", "La France")])
  = unk_replace ["paris"; "france"] ["UNK"; "is"] [[1#10; 9#10]%Q; []] None.
Proof.
  apply (unk_replace_mapping_without_source_keys ["paris"; "france"]
           ["UNK"; "is"] [[1#10; 9#10]%Q; []]
           [("rome", "Roma"); ("France", "La France")]).
  reflexivity.
Defined.

(** X6: [unk_replace] invents no token: every token of the output is a
    predicted token, a source token, or a value of the mapping. *)
Theorem unk_replace_output_tokens src pred att m out o :
  unk_replace src pred att m = Ok out ->
  In o out ->
  In o pred \/ In o src \/
  (exists d k, m = Some d /\ PyDict.get k d = Some o).
Proof.
  intros Hout Ho. apply In_nth_error in Ho as (t & Ht).
  destruct (unk_replace_loop_nth_out _ _ _ _ _ _ Hout Ht)
    as (tok & row & Hp & Hr).
  apply nth_error_combine_inv in Hp as [Hp _].
  destruct (String.eqb tok UNK) eqn:E.
  - apply String.eqb_eq in E; subst tok.
    apply unk_replace_token_unk in Hr as (j & chosen & _ & Hc & ->).
    destruct m as [d|].
    + destruct (PyDict.get chosen d) as [v|] eqn:Ev.
      * right; right. exists d, chosen; auto.
      * right; left. apply (nth_error_In _ _ Hc).
    + right; left. apply (nth_error_In _ _ Hc).
  - rewrite (unk_replace_token_other _ _ _ _ E) in Hr.
    injection Hr as <-. left. apply (nth_error_In _ _ Hp).
Qed.

Lemma unk_replace_output_tokens_witness :
  In "La France" ["UNK"; "is"; "great"] \/
  In "La France" ["paris"; "france"] \/
  (exists d k, Some [("france", "La France")] = Some d
               /\ PyDict.get k d = Some "La France").
Proof.
  apply (unk_replace_output_tokens ["paris"; "france"]
           ["UNK"; "is"; "great"] [[1#10; 9#10]%Q; []; []]
           (Some [("france", "La France")])
           ["La France"; "is"; "great"] "La France");
    [reflexivity | simpl; auto].
Defined.

(** X7: once the sentinel is gone the function is idempotent: an output
    that holds no ["UNK"] is returned as it is when it is given back as
    the predicted tokens, with the same scores. *)
Theorem unk_replace_idempotent src pred att m out :
  unk_replace src pred att m = Ok out ->
  forallb (fun tok => negb (String.eqb tok UNK)) out = true ->
  unk_replace src out att m = Ok out.
Proof.
  intros Hout Hno. unfold unk_replace in *.
  rewrite (unk_replace_loop_no_unk _ _ _ _ Hno).
  apply unk_replace_loop_length in Hout. rewrite length_combine in Hout.
  rewrite firstn_all2 by lia. reflexivity.
Qed.

Lemma unk_replace_idempotent_witness :
  unk_replace ["paris"; "france"] ["france"; "is"; "great"]
    [[1#10; 9#10]%Q; []; []] None
  = Ok ["france"; "is"; "great"].
Proof.
  apply (unk_replace_idempotent ["paris"; "france"] ["UNK"; "is"; "great"]
           [[1#10; 9#10]%Q; []; []] None ["france"; "is"; "great"]);
    reflexivity.
Defined.

Lemma argmax_scan_no_greater best_i best i xs :
  forallb (fun y => Qle_bool y best) xs = true ->
  argmax_scan best_i best i xs = best_i.
Proof.
  revert i; induction xs as [|x xs IH]; intros i H; [reflexivity|].
  simpl in H. apply andb_true_iff in H as [Hx H].
  simpl. rewrite Hx. apply IH, H.
Qed.

(** X8: when no score of the row exceeds the first one (a constant row,
    for instance), the sentinel is replaced from the first source token. *)
Theorem unk_replace_first_score_maximal src0 src pred att x xs t out :
  forallb (fun y => Qle_bool y x) xs = true ->
  unk_replace (src0 :: src) pred att None = Ok out ->
  nth_error pred t = Some UNK ->
  nth_error att t = Some (x :: xs) ->
  nth_error out t = Some src0.
Proof.
  intros Hmax Hout Hp Ha.
  destruct (unk_replace_loop_nth _ _ _ _ _ _ _ Hout
              (nth_error_combine _ _ _ _ _ Hp Ha)) as (o & Hot & Ho).
  unfold unk_replace_token in Ho. simpl String.eqb in Ho. cbv iota in Ho.
  unfold np_argmax in Ho. rewrite (argmax_scan_no_greater _ _ _ _ Hmax) in Ho.
  simpl in Ho. congruence.
Qed.

Lemma unk_replace_first_score_maximal_witness :
  nth_error ["is"; "paris"] 1 = Some "paris".
Proof.
  apply (unk_replace_first_score_maximal "paris" ["france"; "rome"]
           ["is"; "UNK"] [[]; [1#3; 1#3; 2#6]%Q] (1#3)%Q [1#3; 2#6]%Q 1
           ["is"; "paris"]);
    reflexivity.
Defined.

(** * Further properties of create_predictions_iter *)

Section StreamerFurther.

Context {A : Type}.

Lemma batch_length_raise (b : batch A) e :
  batch_length b = Raise e ->
  e = IndexError /\
  (b = [] \/ exists key a rest, b = (key, Scalar a) :: rest).
Proof.
  destruct b as [|[key [a|elems]] rest]; simpl; intros [= <-];
    split; eauto.
Qed.

Lemma yield_records_raise (b : batch A) indices rs e :
  yield_records b indices = (rs, Some e) -> e = IndexError.
Proof.
  revert rs; induction indices as [|i indices IH]; intros rs; simpl;
    [discriminate|].
  destruct (slice b i) as [r|e0] eqn:E.
  - destruct (yield_records b indices) as [rs' o]. intros [= <- ->].
    apply (IH rs'). reflexivity.
  - intros [= <- <-]. apply (slice_items_raise _ _ _ _ E).
Qed.

Lemma yield_records_In (b : batch A) indices rs o r :
  yield_records b indices = (rs, o) -> In r rs ->
  exists i, In i indices /\ slice b i = Ok r.
Proof.
  revert rs; induction indices as [|i indices IH]; intros rs; simpl.
  - intros [= <- <-] [].
  - destruct (slice b i) as [r0|e0] eqn:E.
    + destruct (yield_records b indices) as [rs' o']. intros [= <- <-].
      intros [->|Hin]; [eauto|].
      destruct (IH rs' eq_refl Hin) as (i' & Hi' & Hs). eauto.
    + intros [= <- <-] [].
Qed.

(** The records yielded up to the first index that cannot be sliced. *)
Lemma yield_records_until (b : batch A) (good : list nat) bad rest :
  (forall i, In i good -> slice b i = Ok (index_record b i)) ->
  slice b bad = Raise IndexError ->
  yield_records b (good ++ bad :: rest)
  = (map (index_record b) good, Some IndexError).
Proof.
  intros Hgood Hbad. induction good as [|i good IH]; simpl.
  - rewrite Hbad. reflexivity.
  - rewrite (Hgood i) by (left; reflexivity).
    rewrite IH by (intros; apply Hgood; right; assumption). reflexivity.
Qed.

Lemma slice_items_keys (items : list (string * ndarray A)) i acc r :
  NoDup (PyDict.keys acc ++ PyDict.keys items) ->
  slice_items items i acc = Ok r ->
  PyDict.keys r = PyDict.keys acc ++ PyDict.keys items.
Proof.
  revert acc; induction items as [|[key value] items IH]; intros acc Hnd.
  - simpl. intros [= <-]. rewrite app_nil_r. reflexivity.
  - simpl. destruct (nd_getitem value i) as [x|e]; simpl; [|discriminate].
    intros H.
    assert (Hk : ~ In key (PyDict.keys acc)).
    { apply NoDup_remove_2 in Hnd. intros Hin. apply Hnd.
      apply in_or_app; left; assumption. }
    apply IH in H.
    + rewrite H, (set_fresh _ _ _ Hk). unfold PyDict.keys.
      rewrite map_app, <- app_assoc. reflexivity.
    + rewrite (set_fresh _ _ _ Hk). unfold PyDict.keys in *.
      rewrite map_app, <- app_assoc. exact Hnd.
Qed.

(** X9: the stream never ends on [OutOfRangeError]: the exceptions it
    raises are the other exceptions of [sess.run], unchanged, and the
    [IndexError] of a batch that cannot be sliced. *)
Theorem create_predictions_iter_exceptions (sess : session A) e :
  snd (create_predictions_iter sess) = Raised e ->
  e <> OutOfRangeError /\ (e = IndexError \/ In (Throws e) sess).
Proof.
  induction sess as [|[b|e0] sess IH]; simpl.
  - discriminate.
  - destruct (batch_length b) as [n|e1] eqn:En.
    + destruct (yield_records b (seq 0 n)) as [rs [e1|]] eqn:Ey; simpl.
      * apply yield_records_raise in Ey. subst e1. simpl.
        intros [= <-]. split; [discriminate|auto].
      * intros H. destruct (IH H) as [Hne [Hi|Hin]]; auto.
    + apply batch_length_raise in En as [-> _]. simpl.
      intros [= <-]. split; [discriminate|auto].
  - destruct e0; simpl; try discriminate; intros [= <-];
      (split; [discriminate|auto]).
Qed.

(** X10: an exception of [sess.run] other than [OutOfRangeError] ends the
    stream after the records of the batches fetched before it; the session
    is not run again. *)
Theorem create_predictions_iter_fault (bss : list (batch A * nat)) e
    (rest : session A) :
  forallb (fun bs => has_batch_size (fst bs) (snd bs)) bss = true ->
  e <> OutOfRangeError ->
  create_predictions_iter
    (map (fun bs => Returns (fst bs)) bss ++ Throws e :: rest)
  = (flat_map (fun bs => map (index_record (fst bs)) (seq 0 (snd bs))) bss,
     Raised e).
Proof.
  intros Hbss He.
  rewrite (create_predictions_iter_batches _ _ Hbss).
  unfold yield_then. simpl create_predictions_iter.
  destruct e; try congruence; simpl; rewrite app_nil_r; reflexivity.
Qed.

(** X11: when the shortest field of a batch has [m] entries and the first
    field has more, exactly the records of indices [0 .. m-1] are yielded
    before the [IndexError], and the session is not run again. *)
Theorem create_predictions_iter_shortest_field (b : batch A) n m
    (sess : session A) :
  batch_length b = Ok n ->
  distinct (PyDict.keys b) = true ->
  all_counts (Nat.leb m) b = true ->
  some_count (Nat.eqb m) b = true ->
  m < n ->
  create_predictions_iter (Returns b :: sess)
  = (map (index_record b) (seq 0 m), Raised IndexError).
Proof.
  intros Hn Hd Hall Hsome Hlt. simpl. rewrite Hn.
  replace n with (m + S (n - S m)) by lia.
  rewrite seq_app. simpl seq.
  rewrite yield_records_until.
  - unfold yield_then. simpl. rewrite app_nil_r. reflexivity.
  - intros i Hi. apply in_seq in Hi. apply slice_ok; [assumption|].
    apply (all_counts_weaken (Nat.leb m)); [|assumption].
    intros c Hc. apply Nat.leb_le in Hc. apply Nat.ltb_lt. lia.
  - apply slice_items_short.
    apply some_count_In in Hsome as (key & elems & Hin & Hm).
    apply Nat.eqb_eq in Hm.
    apply (some_count_intro _ _ key elems Hin). apply Nat.leb_le. lia.
Qed.

(** X12: every record has the keys of the batch it comes from, in the
    same order, also when the batch is later found to be ragged. *)
Theorem create_predictions_iter_record_keys (sess : session A) r :
  forallb (fun ev => match ev with
                     | Returns b => distinct (PyDict.keys b)
                     | Throws _ => true
                     end) sess = true ->
  In r (fst (create_predictions_iter sess)) ->
  exists b, In (Returns b) sess /\ PyDict.keys r = PyDict.keys b.
Proof.
  induction sess as [|[b|e0] sess IH]; simpl; intros Hd Hin.
  - destruct Hin.
  - apply andb_true_iff in Hd as [Hb Hd].
    assert (Hhere : forall n rs o,
               yield_records b (seq 0 n) = (rs, o) -> In r rs ->
               exists b', (Returns b = Returns b' \/ In (Returns b') sess)
                          /\ PyDict.keys r = PyDict.keys b').
    { intros n rs o Ey Hr.
      destruct (yield_records_In _ _ _ _ _ Ey Hr) as (i & _ & Hs).
      exists b. split; [auto|].
      apply slice_items_keys in Hs; [exact Hs|].
      simpl. apply distinct_NoDup, Hb. }
    destruct (batch_length b) as [n|e1].
    + destruct (yield_records b (seq 0 n)) as [rs [e1|]] eqn:Ey;
        unfold yield_then in Hin; simpl in Hin.
      * destruct e1; simpl in Hin; rewrite app_nil_r in Hin;
          apply (Hhere n rs _ Ey Hin).
      * apply in_app_or in Hin as [Hin|Hin].
        -- apply (Hhere n rs _ Ey Hin).
        -- destruct (IH Hd Hin) as (b' & Hb' & Hk). exists b'; auto.
    + destruct e1; destruct Hin.
  - destruct e0; destruct Hin.
Qed.

(** X13: the first field alone gives the batch length.  A batch with no
    field, or whose first field is zero-dimensional, raises [IndexError]
    before any record; a batch whose first field is empty is skipped, and
    whatever the other fields hold is dropped. *)
Theorem create_predictions_iter_first_field (b : batch A) (sess : session A) :
  (batch_length b = Raise IndexError <->
   b = [] \/ exists key a rest, b = (key, Scalar a) :: rest) /\
  (batch_length b = Raise IndexError ->
   create_predictions_iter (Returns b :: sess) = ([], Raised IndexError)) /\
  (forall key rest,
      b = (key, Arr []) :: rest ->
      create_predictions_iter (Returns b :: sess)
      = create_predictions_iter sess).
Proof.
  split; [split|split].
  - intros H. apply (batch_length_raise _ _ H).
  - intros [->|(key & a & rest & ->)]; reflexivity.
  - intros H. simpl. rewrite H. reflexivity.
  - intros key rest ->. simpl. apply yield_then_nil.
Qed.

(** X14: the records already yielded do not depend on what the session
    does later: on a longer session the stream starts with the records of
    the shorter one, and a stream that ended on an exception is the same
    whatever follows. *)
Theorem create_predictions_iter_prefix (sess1 sess2 : session A) :
  (exists more,
      fst (create_predictions_iter (sess1 ++ sess2))
      = fst (create_predictions_iter sess1) ++ more) /\
  (forall e, snd (create_predictions_iter sess1) = Raised e ->
             create_predictions_iter (sess1 ++ sess2)
             = create_predictions_iter sess1).
Proof.
  induction sess1 as [|[b|e0] sess1 IH]; simpl.
  - split; [eexists; reflexivity|discriminate].
  - destruct (batch_length b) as [n|e1].
    + destruct (yield_records b (seq 0 n)) as [rs [e1|]].
      * split; [exists []; rewrite app_nil_r; reflexivity|reflexivity].
      * destruct IH as [(more & Hmore) Hsame]. unfold yield_then; simpl.
        split.
        -- exists more. rewrite Hmore, app_assoc. reflexivity.
        -- intros e He. rewrite (Hsame e He). reflexivity.
    + split; [exists []; rewrite app_nil_r; reflexivity|reflexivity].
  - split; [exists []; rewrite app_nil_r; reflexivity|reflexivity].
Qed.

End StreamerFurther.

Lemma create_predictions_iter_exceptions_witness :
  OtherError "DataLossError" <> OutOfRangeError /\
  (OtherError "DataLossError" = IndexError \/
   In (Throws (OtherError "DataLossError"))
      [Returns (tokens_and_scores [1] [10]);
       Throws (OtherError "DataLossError")]).
Proof.
  apply (create_predictions_iter_exceptions
           [Returns (tokens_and_scores [1] [10]);
            Throws (OtherError "DataLossError")]
           (OtherError "DataLossError")).
  reflexivity.
Defined.

Lemma create_predictions_iter_fault_witness :
  create_predictions_iter
    (map (fun bs => Returns (fst bs)) three_batches
     ++ Throws (OtherError "DataLossError")
        :: [Returns (tokens_and_scores [6] [60])])
  = (flat_map (fun bs => map (index_record (fst bs)) (seq 0 (snd bs)))
       three_batches,
     Raised (OtherError "DataLossError")).
Proof.
  apply (create_predictions_iter_fault three_batches
           (OtherError "DataLossError")
           [Returns (tokens_and_scores [6] [60])]);
    [reflexivity | discriminate].
Defined.

Lemma create_predictions_iter_shortest_field_witness :
  create_predictions_iter
    [Returns (tokens_and_scores [1; 2; 3] [10]);
     Returns (tokens_and_scores [4] [40])]
  = (map (index_record (tokens_and_scores [1; 2; 3] [10])) (seq 0 1),
     Raised IndexError).
Proof.
  apply (create_predictions_iter_shortest_field
           (tokens_and_scores [1; 2; 3] [10]) 3 1
           [Returns (tokens_and_scores [4] [40])]);
    [reflexivity | reflexivity | reflexivity | reflexivity | lia].
Defined.

Lemma create_predictions_iter_record_keys_witness :
  exists b,
    In (Returns b) [Returns (tokens_and_scores [1; 2; 3] [10])]
    /\ PyDict.keys [("tokens", Scalar 1); ("scores", Scalar 10)]
       = PyDict.keys b.
Proof.
  apply (create_predictions_iter_record_keys
           [Returns (tokens_and_scores [1; 2; 3] [10])]
           [("tokens", Scalar 1); ("scores", Scalar 10)]);
    [reflexivity | simpl; auto].
Defined.

Lemma create_predictions_iter_first_field_witness :
  create_predictions_iter
    [Returns [("tokens", Arr []); ("scores", Arr [Scalar 10; Scalar 20])];
     Returns (tokens_and_scores [4] [40])]
  = create_predictions_iter [Returns (tokens_and_scores [4] [40])].
Proof.
  apply (proj2 (proj2 (create_predictions_iter_first_field
                         [("tokens", Arr []);
                          ("scores", Arr [Scalar 10; Scalar 20])]
                         [Returns (tokens_and_scores [4] [40])]))
           "tokens" [("scores", Arr [Scalar 10; Scalar 20])]).
  reflexivity.
Defined.

Lemma create_predictions_iter_prefix_witness :
  create_predictions_iter
    ([Returns (tokens_and_scores [1; 2] [10])]
     ++ [Returns (tokens_and_scores [4] [40])])
  = create_predictions_iter [Returns (tokens_and_scores [1; 2] [10])].
Proof.
  apply (proj2 (create_predictions_iter_prefix
                  [Returns (tokens_and_scores [1; 2] [10])]
                  [Returns (tokens_and_scores [4] [40])])
           IndexError).
  reflexivity.
Defined.

(** * Further properties of get_unk_mapping *)

Lemma In_set {V : Type} (k k' : string) (v v' : V) (d : PyDict.dict V) :
  In (k, v) (PyDict.set k' v' d) -> (k, v) = (k', v') \/ In (k, v) d.
Proof.
  induction d as [|[k0 v0] d IH]; simpl.
  - intros [H|[]]; auto.
  - destruct (String.eqb k' k0) eqn:E; simpl.
    + apply String.eqb_eq in E; subst k0.
      intros [H|H]; [left; congruence|auto].
    + intros [H|H]; [auto|]. destruct (IH H); auto.
Qed.

Lemma In_update {V : Type} (kvs : list (string * V)) (d : PyDict.dict V) k v :
  In (k, v) (PyDict.update d kvs) -> In (k, v) d \/ In (k, v) kvs.
Proof.
  revert d; induction kvs as [|[k0 v0] kvs IH]; intros d H; [auto|].
  rewrite update_cons in H. apply IH in H as [H|H]; [|simpl; auto].
  apply In_set in H as [H|H]; simpl; auto.
Qed.

Lemma keys_update_intro {V : Type} (kvs : list (string * V))
    (d : PyDict.dict V) k :
  In k (PyDict.keys d) \/ In k (map fst kvs) ->
  In k (PyDict.keys (PyDict.update d kvs)).
Proof.
  revert d; induction kvs as [|[k0 v0] kvs IH]; intros d H.
  - destruct H as [H|[]]. exact H.
  - rewrite update_cons. apply IH. simpl in H.
    destruct H as [H|[H|H]]; auto; left; apply keys_set; auto.
Qed.

Lemma contains_keys {V : Type} (k : string) (d : PyDict.dict V) :
  In k (PyDict.keys d) -> PyDict.contains k d = true.
Proof.
  unfold PyDict.contains. induction d as [|[k0 v0] d IH]; simpl; [tauto|].
  destruct (String.eqb k k0) eqn:E; [reflexivity|].
  intros [H|H]; [|auto]. subst. rewrite String.eqb_refl in E. discriminate.
Qed.

Lemma forallb_false_exists {X : Type} (p : X -> bool) (xs : list X) :
  forallb p xs = false -> exists x, In x xs /\ p x = false.
Proof.
  induction xs as [|x xs IH]; simpl; [discriminate|].
  destruct (p x) eqn:E; simpl.
  - intros H. destruct (IH H) as (y & Hy & Hp). eauto.
  - eauto.
Qed.

(** What a successful parse has done. *)
Lemma parse_unk_mapping_ok content d :
  parse_unk_mapping content = Ok d ->
  forallb utf8_valid (readlines content) = true /\
  forallb well_formed_line (readlines content) = true /\
  d = strip_items
        (PyDict.update []
           (map (fun l => (line_key l, line_target l)) (readlines content))).
Proof.
  unfold parse_unk_mapping. intros H.
  destruct (forallb utf8_valid (readlines content)); [|discriminate].
  split; [reflexivity|].
  destruct (forallb well_formed_line (readlines content)) eqn:Ewf.
  - rewrite (dict_of_seq_ok _ _ Ewf) in H. simpl in H.
    injection H as <-. auto.
  - apply forallb_false_exists in Ewf as (line & Hin & Hl).
    unfold well_formed_line in Hl. apply Nat.leb_gt in Hl.
    rewrite (dict_of_seq_malformed _ _ _ Hin) in H by lia. discriminate.
Qed.

(** ** str.strip *)

Lemma rstrip_idempotent s : rstrip (rstrip s) = rstrip s.
Proof.
  induction s as [|c s IH]; [reflexivity|].
  cbn [rstrip]. destruct (is_whitespace (String c (rstrip s))) eqn:E.
  - reflexivity.
  - cbn [rstrip]. rewrite IH, E. reflexivity.
Qed.

(** What [rstrip] leaves is the beginning of the string. *)
Lemma rstrip_prefix s : exists suffix, s = (rstrip s ++ suffix)%string.
Proof.
  induction s as [|c s (suffix & IH)]; [exists EmptyString; reflexivity|].
  cbn [rstrip]. destruct (is_whitespace (String c (rstrip s))).
  - exists (String c s). reflexivity.
  - exists suffix. simpl. rewrite <- IH. reflexivity.
Qed.

Lemma drop_prefix_app w x : drop_prefix w (w ++ x) = Some x.
Proof.
  induction w as [|a w IH]; simpl; [reflexivity|].
  rewrite Ascii.eqb_refl. exact IH.
Qed.

Lemma drop_prefix_spec w s rest :
  drop_prefix w s = Some rest -> s = (w ++ rest)%string.
Proof.
  revert s; induction w as [|a w IH]; intros s; simpl.
  - intros [= ->]. reflexivity.
  - destruct s as [|b s]; [discriminate|].
    destruct (Ascii.eqb a b) eqn:E; [|discriminate].
    apply Ascii.eqb_eq in E. subst b. intros H. rewrite (IH _ H).
    reflexivity.
Qed.

Lemma drop_any_spec ws s rest :
  drop_any ws s = Some rest ->
  exists w, In w ws /\ s = (w ++ rest)%string.
Proof.
  induction ws as [|w ws IH]; simpl; [discriminate|].
  destruct (drop_prefix w s) as [r|] eqn:E.
  - intros [= ->]. exists w. split; [auto|apply drop_prefix_spec, E].
  - intros H. destruct (IH H) as (w' & Hin & Hs). eauto.
Qed.

Lemma drop_any_hit ws w x :
  In w ws -> drop_any ws (w ++ x) <> None.
Proof.
  induction ws as [|w0 ws IH]; simpl; [tauto|].
  intros [->|Hin].
  - rewrite drop_prefix_app. discriminate.
  - destruct (drop_prefix w0 (w ++ x)); [discriminate|auto].
Qed.

Lemma string_length_app (a b : string) :
  String.length (a ++ b) = String.length a + String.length b.
Proof. induction a as [|c a IH]; simpl; [reflexivity|]. rewrite IH. reflexivity. Qed.

Lemma whitespace_nonempty w : In w whitespace -> 0 < String.length w.
Proof.
  assert (H : forallb (fun w => 0 <? String.length w) whitespace = true)
    by reflexivity.
  rewrite forallb_forall in H. intros Hin. apply Nat.ltb_lt, H, Hin.
Qed.

Lemma drop_whitespace_shorter s rest :
  drop_any whitespace s = Some rest -> String.length rest < String.length s.
Proof.
  intros H. apply drop_any_spec in H as (w & Hin & ->).
  rewrite string_length_app. apply whitespace_nonempty in Hin. lia.
Qed.

Lemma lstrip_upto_done n s :
  String.length s <= n -> drop_any whitespace (lstrip_upto n s) = None.
Proof.
  revert s; induction n as [|n IH]; intros s Hlen.
  - destruct s; [reflexivity|simpl in Hlen; lia].
  - cbn [lstrip_upto]. destruct (drop_any whitespace s) as [rest|] eqn:E.
    + apply IH. apply drop_whitespace_shorter in E. lia.
    + exact E.
Qed.

Lemma lstrip_upto_fixed n s :
  drop_any whitespace s = None -> lstrip_upto n s = s.
Proof. intros H. destruct n; [reflexivity|]. cbn [lstrip_upto]. rewrite H. reflexivity. Qed.

Lemma strip_idempotent s : strip (strip s) = strip s.
Proof.
  unfold strip.
  assert (Hl : drop_any whitespace (lstrip s) = None)
    by (apply lstrip_upto_done, Nat.le_refl).
  assert (Hr : drop_any whitespace (rstrip (lstrip s)) = None).
  { destruct (drop_any whitespace (rstrip (lstrip s))) as [rest|] eqn:E;
      [|reflexivity].
    apply drop_any_spec in E as (w & Hin & Hw).
    destruct (rstrip_prefix (lstrip s)) as (suffix & Hs).
    rewrite Hw in Hs.
    exfalso. apply (drop_any_hit whitespace w (rest ++ suffix) Hin).
    rewrite <- Hl, Hs. f_equal.
    clear. induction w as [|a w IH]; simpl; [reflexivity|].
    rewrite IH. reflexivity. }
  unfold lstrip at 1. rewrite (lstrip_upto_fixed _ _ Hr).
  apply rstrip_idempotent.
Qed.

(** ** The table and the lines of the file *)

(** X15: on a file that exists, [get_unk_mapping] returns a table exactly
    when every line decodes as UTF-8 and has at least two tab-separated
    fields; it raises the decoding error when a line does not decode, and
    [ValueError] when the lines decode and one of them has fewer than two
    fields. *)
Theorem get_unk_mapping_returns_iff fs filename content :
  fs filename = Some content ->
  ((exists d, get_unk_mapping fs filename = Ok d) <->
   forallb utf8_valid (readlines content) = true /\
   forallb well_formed_line (readlines content) = true) /\
  (forallb utf8_valid (readlines content) = false ->
   get_unk_mapping fs filename = Raise (OtherError "UnicodeDecodeError")) /\
  (forallb utf8_valid (readlines content) = true ->
   forallb well_formed_line (readlines content) = false ->
   get_unk_mapping fs filename = Raise ValueError).
Proof.
  intros Hfs. unfold get_unk_mapping. rewrite Hfs. split; [split|split].
  - intros (d & Hd). apply parse_unk_mapping_ok in Hd as (Hdec & Hwf & _).
    auto.
  - intros [Hdec Hwf]. unfold parse_unk_mapping.
    rewrite Hdec, (dict_of_seq_ok _ _ Hwf). simpl. eauto.
  - intros Hdec. unfold parse_unk_mapping. rewrite Hdec. reflexivity.
  - intros Hdec Hwf. unfold parse_unk_mapping. rewrite Hdec.
    apply forallb_false_exists in Hwf as (line & Hin & Hl).
    unfold well_formed_line in Hl. apply Nat.leb_gt in Hl.
    rewrite (dict_of_seq_malformed _ _ _ Hin) by lia. reflexivity.
Qed.

Lemma get_unk_mapping_returns_iff_witness :
  ((exists d,
       get_unk_mapping
         (fun _ => Some (mapping_line "paris" "Paris" ++ "rome")%string)
         "unk_mapping.txt" = Ok d) <->
   forallb utf8_valid
     (readlines (mapping_line "paris" "Paris" ++ "rome")%string) = true /\
   forallb well_formed_line
     (readlines (mapping_line "paris" "Paris" ++ "rome")%string) = true) /\
  (forallb utf8_valid
     (readlines (mapping_line "paris" "Paris" ++ "rome")%string) = false ->
   get_unk_mapping
     (fun _ => Some (mapping_line "paris" "Paris" ++ "rome")%string)
     "unk_mapping.txt" = Raise (OtherError "UnicodeDecodeError")) /\
  (forallb utf8_valid
     (readlines (mapping_line "paris" "Paris" ++ "rome")%string) = true ->
   forallb well_formed_line
     (readlines (mapping_line "paris" "Paris" ++ "rome")%string) = false ->
   get_unk_mapping
     (fun _ => Some (mapping_line "paris" "Paris" ++ "rome")%string)
     "unk_mapping.txt" = Raise ValueError).
Proof.
  apply (get_unk_mapping_returns_iff
           (fun _ => Some (mapping_line "paris" "Paris" ++ "rome")%string)
           "unk_mapping.txt"
           (mapping_line "paris" "Paris" ++ "rome")%string).
  reflexivity.
Defined.

(** X16: no key and no value of the table carries whitespace at either
    end: stripping an entry again changes nothing.  In particular the
    newline of the line never reaches a value. *)
Theorem get_unk_mapping_entries_stripped fs filename d k v :
  get_unk_mapping fs filename = Ok d ->
  In (k, v) d ->
  strip k = k /\ strip v = v.
Proof.
  unfold get_unk_mapping. destruct (fs filename) as [content|];
    [|discriminate].
  intros Hd Hin. apply parse_unk_mapping_ok in Hd as (_ & _ & ->).
  unfold strip_items, PyDict.items in Hin.
  apply In_update in Hin as [[]|Hin].
  apply in_map_iff in Hin as ([k0 v0] & [= <- <-] & _).
  split; apply strip_idempotent.
Qed.

Lemma get_unk_mapping_entries_stripped_witness :
  strip "paris" = "paris" /\ strip "La Ville" = "La Ville".
Proof.
  apply (get_unk_mapping_entries_stripped
           (fun _ => Some (mapping_line " paris " "  La Ville "))
           "unk_mapping.txt" [("paris", "La Ville")]);
    [reflexivity | simpl; auto].
Defined.

(** X17: the table holds nothing but what the file says, and misses no
    source token: every entry is the trimmed key and target of some line,
    and the trimmed key of every line is a key of the table. *)
Theorem get_unk_mapping_entries_from_lines fs filename content d :
  fs filename = Some content ->
  get_unk_mapping fs filename = Ok d ->
  (forall k v, PyDict.get k d = Some v ->
               exists line, In line (readlines content) /\
                            strip (line_key line) = k /\
                            strip (line_target line) = v) /\
  (forall line, In line (readlines content) ->
                PyDict.contains (strip (line_key line)) d = true).
Proof.
  intros Hfs. unfold get_unk_mapping. rewrite Hfs. intros Hd.
  apply parse_unk_mapping_ok in Hd as (_ & _ & ->).
  unfold strip_items, PyDict.items.
  set (pairs := map (fun l => (line_key l, line_target l))
                  (readlines content)).
  split.
  - intros k v Hget. apply get_In in Hget.
    apply In_update in Hget as [[]|Hget].
    apply in_map_iff in Hget as ([k0 v0] & [= <- <-] & Hin).
    apply In_update in Hin as [[]|Hin].
    apply in_map_iff in Hin as (line & [= <- <-] & Hline).
    exists line. auto.
  - intros line Hline. apply contains_keys, keys_update_intro. right.
    rewrite map_map. cbn [fst].
    apply in_map_iff.
    assert (Hk : In (line_key line) (PyDict.keys (PyDict.update [] pairs))).
    { apply keys_update_intro. right. unfold pairs. rewrite map_map.
      cbn [fst]. apply in_map. exact Hline. }
    apply in_map_iff in Hk as ([k0 v0] & Hk0 & Hin). simpl in Hk0. subst k0.
    exists (line_key line, v0). auto.
Qed.

Lemma get_unk_mapping_entries_from_lines_witness :
  (forall k v,
      PyDict.get k [("a", "2")] = Some v ->
      exists line,
        In line (readlines (mapping_line "a" "1" ++ mapping_line " a" "2"
                            ++ mapping_line "a" "3")%string) /\
        strip (line_key line) = k /\ strip (line_target line) = v) /\
  (forall line,
      In line (readlines (mapping_line "a" "1" ++ mapping_line " a" "2"
                          ++ mapping_line "a" "3")%string) ->
      PyDict.contains (strip (line_key line)) [("a", "2")] = true).
Proof.
  apply (get_unk_mapping_entries_from_lines
           (fun _ => Some (mapping_line "a" "1" ++ mapping_line " a" "2"
                           ++ mapping_line "a" "3")%string)
           "unk_mapping.txt");
    reflexivity.
Defined.

(** With distinct trimmed keys both dictionaries are built by appending. *)
Lemma get_unk_mapping_distinct_keys_aux fs filename content :
  fs filename = Some content ->
  forallb utf8_valid (readlines content) = true ->
  forallb well_formed_line (readlines content) = true ->
  distinct (map (fun l => strip (line_key l)) (readlines content)) = true ->
  get_unk_mapping fs filename
  = Ok (map (fun l => (strip (line_key l), strip (line_target l)))
          (readlines content)).
Proof.
  intros Hfs Hdec Hwf Hd. unfold get_unk_mapping, parse_unk_mapping.
  rewrite Hfs, Hdec, (dict_of_seq_ok _ _ Hwf). cbn [bind]. f_equal.
  apply distinct_NoDup in Hd.
  assert (Hraw : NoDup (map line_key (readlines content))).
  { apply (NoDup_map_inv strip). rewrite map_map. exact Hd. }
  unfold strip_items, PyDict.items.
  rewrite (update_fresh
             (map (fun l => (line_key l, line_target l)) (readlines content))
             [])
    by (simpl; rewrite map_map; exact Hraw).
  rewrite (update_fresh _ [])
    by (simpl; rewrite !map_map; exact Hd).
  simpl. rewrite map_map. reflexivity.
Qed.

(** X18: on a file that decodes and whose lines all have two fields, when
    the trimmed keys of the lines are all different, the table is the list
    of the trimmed pairs, one per line, in the order of the file. *)
Theorem get_unk_mapping_distinct_keys fs filename content :
  fs filename = Some content ->
  forallb utf8_valid (readlines content) = true ->
  forallb well_formed_line (readlines content) = true ->
  distinct (map (fun l => strip (line_key l)) (readlines content)) = true ->
  get_unk_mapping fs filename
  = Ok (map (fun l => (strip (line_key l), strip (line_target l)))
          (readlines content)).
Proof.
  intros Hfs Hdec Hwf Hd. unfold get_unk_mapping, parse_unk_mapping.
  rewrite Hfs, Hdec, (dict_of_seq_ok _ _ Hwf). cbn [bind]. f_equal.
  apply distinct_NoDup in Hd.
  assert (Hraw : NoDup (map line_key (readlines content))).
  { apply (NoDup_map_inv strip). rewrite map_map. exact Hd. }
  unfold strip_items, PyDict.items.
  rewrite (update_fresh
             (map (fun l => (line_key l, line_target l)) (readlines content))
             [])
    by (simpl; rewrite map_map; exact Hraw).
  rewrite (update_fresh _ [])
    by (simpl; rewrite !map_map; exact Hd).
  simpl. rewrite map_map. reflexivity.
Qed.

Lemma get_unk_mapping_distinct_keys_witness :
  get_unk_mapping
    (fun _ => Some (mapping_line " rome" "Roma " ++ mapping_line "paris" "Paris")%string)
    "unk_mapping.txt"
  = Ok (map (fun l => (strip (line_key l), strip (line_target l)))
          (readlines (mapping_line " rome" "Roma "
                      ++ mapping_line "paris" "Paris")%string)).
Proof.
  apply (get_unk_mapping_distinct_keys
           (fun _ => Some (mapping_line " rome" "Roma "
                           ++ mapping_line "paris" "Paris")%string)
           "unk_mapping.txt");
    reflexivity.
Defined.

(** ** Writing a table and reading it back *)

Lemma string_app_assoc (a b c : string) :
  ((a ++ b) ++ c = a ++ (b ++ c))%string.
Proof. induction a as [|x a IH]; simpl; [reflexivity|]. rewrite IH. reflexivity. Qed.

Lemma has_char_app c (a b : string) :
  has_char c (a ++ b) = has_char c a || has_char c b.
Proof.
  induction a as [|x a IH]; simpl; [reflexivity|].
  rewrite IH. apply orb_assoc.
Qed.

Lemma split_lines_line (s rest : string) :
  has_char NL s = false ->
  split_lines (s ++ String NL rest)
  = (s ++ String NL EmptyString)%string :: split_lines rest.
Proof.
  induction s as [|c s IH]; simpl; intros H; [reflexivity|].
  apply orb_false_iff in H as [Hc H]. rewrite Hc, (IH H). reflexivity.
Qed.

Lemma drop_cr_line (s rest : string) :
  has_char CR s = false ->
  drop_cr (s ++ String NL rest) = (s ++ String NL (drop_cr rest))%string.
Proof.
  induction s as [|c s IH]; simpl; intros H; [reflexivity|].
  apply orb_false_iff in H as [Hc H]. rewrite Hc, (IH H). reflexivity.
Qed.

Lemma readlines_line (s rest : string) :
  has_char NL s = false -> has_char CR s = false ->
  readlines (s ++ String NL rest)
  = (s ++ String NL EmptyString)%string :: readlines rest.
Proof.
  intros Hnl Hcr. unfold readlines.
  rewrite (drop_cr_line _ _ Hcr). apply split_lines_line, Hnl.
Qed.

Lemma rstrip_length s : String.length (rstrip s) <= String.length s.
Proof.
  destruct (rstrip_prefix s) as (suffix & H).
  rewrite H at 2. rewrite string_length_app. lia.
Qed.

Lemma lstrip_upto_length n s :
  String.length (lstrip_upto n s) <= String.length s.
Proof.
  revert s; induction n as [|n IH]; intros s; [apply Nat.le_refl|].
  cbn [lstrip_upto]. destruct (drop_any whitespace s) as [rest|] eqn:E;
    [|apply Nat.le_refl].
  apply drop_whitespace_shorter in E. specialize (IH rest). lia.
Qed.

(** A string that [strip] leaves alone starts with no whitespace. *)
Lemma strip_fixed_start s : strip s = s -> drop_any whitespace s = None.
Proof.
  intros H. destruct (drop_any whitespace s) as [rest|] eqn:E;
    [|reflexivity].
  exfalso. apply (f_equal String.length) in H.
  unfold strip, lstrip in H.
  pose proof (drop_whitespace_shorter _ _ E) as Hlt.
  destruct (String.length s) as [|n] eqn:En; [lia|].
  cbn [lstrip_upto] in H. rewrite E in H.
  pose proof (rstrip_length (lstrip_upto n rest)).
  pose proof (lstrip_upto_length n rest). lia.
Qed.

Lemma rstrip_app_newline t :
  rstrip (t ++ String NL EmptyString) = rstrip t.
Proof.
  induction t as [|a t IH]; [reflexivity|].
  change (String a t ++ String NL EmptyString)%string
    with (String a (t ++ String NL EmptyString)).
  cbn [rstrip]. rewrite IH. reflexivity.
Qed.

Lemma app_newline_prefix w v rest :
  has_char NL w = false ->
  (v ++ String NL EmptyString = w ++ rest)%string ->
  exists rest', v = (w ++ rest')%string.
Proof.
  revert v; induction w as [|a w IH]; intros v Hw H.
  - exists v. reflexivity.
  - simpl in Hw. apply orb_false_iff in Hw as [Ha Hw].
    destruct v as [|b v]; simpl in H.
    + injection H as H _. subst a. discriminate.
    + injection H as -> H. destruct (IH v Hw H) as (rest' & ->).
      exists rest'. reflexivity.
Qed.

(** No whitespace character has a newline after its first byte. *)
Lemma whitespace_tail w :
  In w whitespace ->
  exists a w', w = String a w' /\ has_char NL w' = false.
Proof.
  assert (H : forallb (fun w => match w with
                                | EmptyString => false
                                | String _ w' => negb (has_char NL w')
                                end) whitespace = true) by reflexivity.
  rewrite forallb_forall in H. intros Hin. specialize (H w Hin).
  destruct w as [|a w']; [discriminate|].
  exists a, w'. split; [reflexivity|apply negb_true_iff, H].
Qed.

Lemma start_app_newline v :
  v <> EmptyString -> drop_any whitespace v = None ->
  drop_any whitespace (v ++ String NL EmptyString) = None.
Proof.
  intros Hne Hv.
  destruct (drop_any whitespace (v ++ String NL EmptyString)) as [rest|] eqn:E;
    [|reflexivity].
  exfalso. apply drop_any_spec in E as (w & Hin & Hw).
  destruct (whitespace_tail w Hin) as (a & w' & -> & Hw').
  destruct v as [|b v]; [congruence|].
  simpl in Hw. injection Hw as -> Hw.
  destruct (app_newline_prefix _ _ _ Hw' Hw) as (rest' & ->).
  apply (drop_any_hit whitespace (String a w') rest' Hin). exact Hv.
Qed.

(** The newline that [readlines] keeps is stripped with the rest. *)
Lemma strip_app_newline v :
  strip v = v -> strip (v ++ String NL EmptyString) = v.
Proof.
  intros H. destruct v as [|b v]; [reflexivity|].
  pose proof (strip_fixed_start _ H) as Hs.
  assert (Hr : rstrip (String b v) = String b v).
  { unfold strip, lstrip in H. rewrite (lstrip_upto_fixed _ _ Hs) in H.
    exact H. }
  unfold strip, lstrip.
  rewrite lstrip_upto_fixed
    by (apply start_app_newline; [discriminate|exact Hs]).
  rewrite rstrip_app_newline. exact Hr.
Qed.

Lemma split_field (k w : string) :
  has_char TAB k = false ->
  split TAB (k ++ String TAB w) = k :: split TAB w.
Proof.
  induction k as [|c k IH]; simpl; intros H; [reflexivity|].
  apply orb_false_iff in H as [Hc H]. rewrite Hc, (IH H). reflexivity.
Qed.

Lemma split_no_sep (w : string) :
  has_char TAB w = false -> split TAB w = [w].
Proof.
  induction w as [|c w IH]; simpl; intros H; [reflexivity|].
  apply orb_false_iff in H as [Hc H]. rewrite Hc, (IH H). reflexivity.
Qed.

Lemma split_mapping_line (k v : string) :
  has_char TAB k = false -> has_char TAB v = false ->
  split TAB (mapping_line k v) = [k; (v ++ String NL EmptyString)%string].
Proof.
  intros Hk Hv. unfold mapping_line.
  rewrite (split_field _ _ Hk), split_no_sep; [reflexivity|].
  rewrite has_char_app, Hv. reflexivity.
Qed.

Lemma readlines_render (d : PyDict.dict string) :
  forallb (fun kv => clean_token (fst kv) && clean_token (snd kv)) d = true ->
  readlines (render_mapping d)
  = map (fun kv => mapping_line (fst kv) (snd kv)) d.
Proof.
  induction d as [|[k v] d IH]; simpl; intros H; [reflexivity|].
  apply andb_true_iff in H as [Hkv H].
  apply andb_true_iff in Hkv as [Hk Hv].
  unfold clean_token in Hk, Hv.
  apply andb_true_iff in Hk as [Hk _]. apply andb_true_iff in Hk as [Hk Hkc].
  apply andb_true_iff in Hk as [_ Hk].
  apply andb_true_iff in Hv as [Hv _]. apply andb_true_iff in Hv as [Hv Hvc].
  apply andb_true_iff in Hv as [_ Hv].
  apply negb_true_iff in Hk. apply negb_true_iff in Hv.
  apply negb_true_iff in Hkc. apply negb_true_iff in Hvc.
  unfold mapping_line at 1.
  replace ((k ++ String TAB (v ++ String NL EmptyString))
           ++ render_mapping d)%string
    with ((k ++ String TAB v) ++ String NL (render_mapping d))%string.
  - rewrite readlines_line.
    + rewrite (IH H). f_equal. unfold mapping_line.
      rewrite string_app_assoc. reflexivity.
    + rewrite has_char_app. simpl. rewrite Hk, Hv. reflexivity.
    + rewrite has_char_app. simpl. rewrite Hkc, Hvc. reflexivity.
  - rewrite !string_app_assoc. simpl. rewrite string_app_assoc. reflexivity.
Qed.

(** X19: a table with distinct keys, whose keys and values hold no tab,
    no newline, no carriage return and no whitespace at either end, is
    read back unchanged from the file that lists its entries as
    [source<TAB>target] lines, when that file decodes. *)
Theorem get_unk_mapping_round_trip fs filename (d : PyDict.dict string) :
  fs filename = Some (render_mapping d) ->
  forallb utf8_valid (readlines (render_mapping d)) = true ->
  distinct (PyDict.keys d) = true ->
  forallb (fun kv => clean_token (fst kv) && clean_token (snd kv)) d = true ->
  get_unk_mapping fs filename = Ok d.
Proof.
  intros Hfs Hdec Hd Hclean.
  assert (Hlines := readlines_render d Hclean).
  assert (Hfields : forall k v, In (k, v) d ->
             split TAB (mapping_line k v)
             = [k; (v ++ String NL EmptyString)%string]
             /\ strip k = k /\ strip v = v).
  { intros k v Hin. rewrite forallb_forall in Hclean.
    specialize (Hclean _ Hin). simpl in Hclean.
    apply andb_true_iff in Hclean as [Hk Hv]. unfold clean_token in Hk, Hv.
    apply andb_true_iff in Hk as [Hk Hks].
    apply andb_true_iff in Hk as [Hk _].
    apply andb_true_iff in Hk as [Hkt _].
    apply andb_true_iff in Hv as [Hv Hvs].
    apply andb_true_iff in Hv as [Hv _].
    apply andb_true_iff in Hv as [Hvt _].
    apply negb_true_iff in Hkt. apply negb_true_iff in Hvt.
    apply String.eqb_eq in Hks. apply String.eqb_eq in Hvs.
    split; [apply split_mapping_line; assumption|auto]. }
  assert (Hpairs : map (fun l => (strip (line_key l), strip (line_target l)))
                     (map (fun kv => mapping_line (fst kv) (snd kv)) d)
                   = d).
  { rewrite map_map. rewrite <- (map_id d) at 2. apply map_ext_in.
    intros [k v] Hin. destruct (Hfields k v Hin) as (Hs & Hk & Hv).
    unfold line_key, line_target. cbn [fst snd]. rewrite Hs. cbn [nth].
    rewrite (strip_app_newline _ Hv). congruence. }
  rewrite (get_unk_mapping_distinct_keys_aux fs filename _ Hfs).
  - rewrite Hlines, Hpairs. reflexivity.
  - exact Hdec.
  - rewrite Hlines. apply forallb_forall. intros l Hl.
    apply in_map_iff in Hl as ([k v] & <- & Hin).
    destruct (Hfields k v Hin) as (Hs & _). unfold well_formed_line.
    cbn [fst snd]. rewrite Hs. reflexivity.
  - rewrite Hlines.
    replace (map (fun l => strip (line_key l))
               (map (fun kv => mapping_line (fst kv) (snd kv)) d))
      with (map fst (map (fun l => (strip (line_key l), strip (line_target l)))
                       (map (fun kv => mapping_line (fst kv) (snd kv)) d)))
      by (rewrite !map_map; reflexivity).
    rewrite Hpairs. exact Hd.
Qed.

Lemma get_unk_mapping_round_trip_witness :
  get_unk_mapping
    (fun _ => Some (render_mapping
                      [("france", "La France"); ("rome", "Roma")]))
    "unk_mapping.txt"
  = Ok [("france", "La France"); ("rome", "Roma")].
Proof.
  apply (get_unk_mapping_round_trip
           (fun _ => Some (render_mapping
                             [("france", "La France"); ("rome", "Roma")]))
           "unk_mapping.txt"
           [("france", "La France"); ("rome", "Roma")]);
    reflexivity.
Defined.

(** * Properties of load_model *)

Lemma get_not_key {V : Type} (k : string) (d : PyDict.dict V) :
  ~ In k (PyDict.keys d) -> PyDict.get k d = None.
Proof.
  induction d as [|[k0 v0] d IH]; simpl; intros H; [reflexivity|].
  destruct (String.eqb k k0) eqn:E.
  - apply String.eqb_eq in E. subst. tauto.
  - apply IH. tauto.
Qed.

(** [d.update(other)] for a dict [other]: the values of [other] win. *)
Lemma get_update_dict {V : Type} (other d : PyDict.dict V) k :
  NoDup (PyDict.keys other) ->
  PyDict.get k (PyDict.update d (PyDict.items other))
  = match PyDict.get k other with
    | Some v => Some v
    | None => PyDict.get k d
    end.
Proof.
  unfold PyDict.items. revert d.
  induction other as [|[k0 v0] other IH]; intros d Hnd; [reflexivity|].
  inversion Hnd as [|? ? Hk0 Hnd']; subst.
  rewrite update_cons, (IH _ Hnd'), get_set. simpl.
  destruct (String.eqb k k0) eqn:E; [|reflexivity].
  apply String.eqb_eq in E. subst k0.
  rewrite (get_not_key _ _ Hk0). reflexivity.
Qed.

Lemma keys_set_shape {V : Type} (k : string) (v : V) (d : PyDict.dict V) :
  PyDict.keys (PyDict.set k v d)
  = PyDict.keys d ++ (if PyDict.contains k d then [] else [k]).
Proof.
  unfold PyDict.contains. induction d as [|[k0 v0] d IH]; simpl;
    [reflexivity|].
  destruct (String.eqb k k0) eqn:E; simpl.
  - rewrite app_nil_r. reflexivity.
  - rewrite IH. reflexivity.
Qed.

Lemma keys_update_shape {V : Type} (kvs : list (string * V))
    (d : PyDict.dict V) :
  exists added,
    PyDict.keys (PyDict.update d kvs) = PyDict.keys d ++ added /\
    forall k, In k added -> In k (map fst kvs) /\ ~ In k (PyDict.keys d).
Proof.
  revert d; induction kvs as [|[k0 v0] kvs IH]; intros d.
  - exists []. rewrite app_nil_r. split; [reflexivity|intros k []].
  - rewrite update_cons. cbn [fst snd].
    destruct (IH (PyDict.set k0 v0 d)) as (added & Hkeys & Hadded).
    rewrite keys_set_shape in Hkeys.
    destruct (PyDict.contains k0 d) eqn:Ec.
    + rewrite app_nil_r in Hkeys. exists added. split; [exact Hkeys|].
      intros k Hk. destruct (Hadded k Hk) as [Hin Hnot]. split.
      * right; assumption.
      * intros Hd. apply Hnot. apply keys_set. auto.
    + rewrite <- app_assoc in Hkeys. exists ([k0] ++ added).
      split; [exact Hkeys|].
      intros k [<-|Hk].
      * split; [left; reflexivity|].
        intros Hd. apply contains_keys in Hd. congruence.
      * destruct (Hadded k Hk) as [Hin Hnot]. split.
        -- right; assumption.
        -- intros Hd. apply Hnot. apply keys_set. auto.
Qed.

(** [params] wins over the training options, which win over the defaults
    of the class. *)
Lemma merge_hparams_get {Value : Type}
    (defaults train : PyDict.dict Value)
    (params : option (PyDict.dict Value)) (k : string) :
  distinct (PyDict.keys train) = true ->
  match params with
  | Some p => distinct (PyDict.keys p)
  | None => true
  end = true ->
  PyDict.get k (merge_hparams defaults train params)
  = match match params with
          | Some p => PyDict.get k p
          | None => None
          end with
    | Some v => Some v
    | None =>
        match PyDict.get k train with
        | Some v => Some v
        | None => PyDict.get k defaults
        end
    end.
Proof.
  intros Ht Hp. apply distinct_NoDup in Ht. unfold merge_hparams.
  destruct params as [p|].
  - apply distinct_NoDup in Hp.
    rewrite (get_update_dict _ _ _ Hp), (get_update_dict _ _ _ Ht).
    reflexivity.
  - apply (get_update_dict _ _ _ Ht).
Qed.

Section LoadModelProperties.

Context {Value VocabInfo Mode Model : Type}.
Variable TrainOptions_load : string -> result (@TrainOptions Value).
Variable get_vocab_info : string -> result VocabInfo.
Variable locate : string -> option (@ModelClass Value VocabInfo Mode Model).
Variable models_getattr :
  string -> result (@ModelClass Value VocabInfo Mode Model).

(** X20: a model returned by [load_model] was constructed by the class
    named in the training options, with hyperparameters that give, for
    every name, the value of the [params] argument when it has one, else
    the value saved with the training options when they have one, else the
    default of the class. *)
Theorem load_model_hparams model_dir mode params opts cls model :
  TrainOptions_load model_dir = Ok opts ->
  find_model_class locate models_getattr (model_class opts) = Ok cls ->
  distinct (PyDict.keys (hparams opts)) = true ->
  match params with
  | Some p => distinct (PyDict.keys p)
  | None => true
  end = true ->
  load_model TrainOptions_load get_vocab_info locate models_getattr
    model_dir mode params = Ok model ->
  exists source_vocab_info target_vocab_info hp,
    construct cls source_vocab_info target_vocab_info hp mode = Ok model /\
    forall k,
      PyDict.get k hp
      = match match params with
              | Some p => PyDict.get k p
              | None => None
              end with
        | Some v => Some v
        | None =>
            match PyDict.get k (hparams opts) with
            | Some v => Some v
            | None => PyDict.get k (default_params cls)
            end
        end.
Proof.
  intros Hopts Hcls Ht Hp. unfold load_model. rewrite Hopts. cbn [bind].
  destruct (get_vocab_info (source_vocab_path opts)) as [sv|e];
    [|discriminate]. cbn [bind].
  destruct (get_vocab_info (target_vocab_path opts)) as [tv|e];
    [|discriminate]. cbn [bind].
  rewrite Hcls. cbn [bind]. intros Hmodel.
  exists sv, tv,
    (merge_hparams (default_params cls) (hparams opts) params).
  split; [exact Hmodel|].
  intros k. apply merge_hparams_get; assumption.
Qed.

End LoadModelProperties.

Lemma load_model_hparams_witness :
  exists source_vocab_info target_vocab_info hp,
    construct attention_class source_vocab_info target_vocab_info hp tt
    = Ok [("beam_width", 4); ("dropout", 2); ("layers", 3)] /\
    forall k,
      PyDict.get k hp
      = match match Some [("beam_width", 4)] with
              | Some p => PyDict.get k p
              | None => None
              end with
        | Some v => Some v
        | None =>
            match PyDict.get k (hparams saved_options) with
            | Some v => Some v
            | None => PyDict.get k (default_params attention_class)
            end
        end.
Proof.
  apply (load_model_hparams
           (fun _ => Ok saved_options) (fun path => Ok path)
           (fun _ => None)
           (fun name => if String.eqb name "AttentionSeq2Seq"
                        then Ok attention_class
                        else Raise (OtherError "AttributeError"))
           "model_dir" tt (Some [("beam_width", 4)])
           saved_options attention_class
           [("beam_width", 4); ("dropout", 2); ("layers", 3)]);
    reflexivity.
Defined.

(** X21: the merge keeps every default name, in its place: the names of
    the merged hyperparameters are those of the defaults followed by names
    the defaults do not have, each taken from the training options or
    from [params]. *)
Theorem merge_hparams_keys {Value : Type}
    (defaults train : PyDict.dict Value)
    (params : option (PyDict.dict Value)) :
  exists added,
    PyDict.keys (merge_hparams defaults train params)
    = PyDict.keys defaults ++ added /\
    forall k, In k added ->
              ~ In k (PyDict.keys defaults) /\
              (In k (PyDict.keys train) \/
               exists p, params = Some p /\ In k (PyDict.keys p)).
Proof.
  unfold merge_hparams, PyDict.items.
  destruct (keys_update_shape train defaults) as (a1 & Hk1 & Ha1).
  destruct params as [p|].
  - destruct (keys_update_shape p (PyDict.update defaults train))
      as (a2 & Hk2 & Ha2).
    exists (a1 ++ a2). rewrite Hk2, Hk1, app_assoc. split; [reflexivity|].
    intros k Hk. apply in_app_or in Hk as [Hk|Hk].
    + destruct (Ha1 k Hk). auto.
    + destruct (Ha2 k Hk) as [Hin Hnot]. split.
      * intros Hd. apply Hnot. rewrite Hk1. apply in_or_app. auto.
      * right. exists p. auto.
  - exists a1. split; [exact Hk1|].
    intros k Hk. destruct (Ha1 k Hk). auto.
Qed.
